(** * cluster-support-bot: a shallow embedding of [cluster-support-bot.py]

    The bot listens to chat messages, de-duplicates the ones addressed to
    it, parses them with an [argparse] parser whose failures are turned
    into exceptions, and dispatches to handlers that read and write
    account notes through the Hydra client.

    Python strings are modelled as [string] (one [ascii] per code point
    below 256), dictionaries with a fixed set of keys as records, the
    global [recent_events] set as a [gset], the Prometheus counters as
    [gmap]s from label to count, and exceptions as an explicit result
    type threaded through a state monad. *)

From Stdlib Require Import ZArith Ascii String List Lia Bool Sorted.
From stdpp Require Import base gmap strings list fin_maps.

Local Open Scope string_scope.

(** ** Python string primitives used by the bot *)

Module PyStr.

(** [s.startswith(pre)] *)
Definition startswith (s pre : string) : bool := String.prefix pre s.

(** [needle in hay] for strings: some suffix of [hay] starts with [needle]. *)
Fixpoint contains (needle hay : string) : bool :=
  String.prefix needle hay ||
  match hay with
  | EmptyString => false
  | String _ rest => contains needle rest
  end.

(** [str.isspace] on one code point below 256: tab, line feed, vertical
    tab, form feed, carriage return, the four separators 28..31, space,
    NEL (133) and the no-break space (160). *)
Definition is_space (c : ascii) : bool :=
  let n := nat_of_ascii c in
  ((9 <=? n)%nat && (n <=? 13)%nat) || ((28 <=? n)%nat && (n <=? 32)%nat)
  || (n =? 133)%nat || (n =? 160)%nat.

Fixpoint lstrip (s : string) : string :=
  match s with
  | EmptyString => EmptyString
  | String c rest => if is_space c then lstrip rest else s
  end.

Fixpoint rstrip (s : string) : string :=
  match s with
  | EmptyString => EmptyString
  | String c rest =>
      match rstrip rest with
      | EmptyString => if is_space c then EmptyString else String c EmptyString
      | r => String c r
      end
  end.

(** [s.strip()] *)
Definition strip (s : string) : string := rstrip (lstrip s).

Definition newline : ascii := ascii_of_nat 10.
Definition nl : string := String newline EmptyString.

(** [s.split('\n', 1)]: the text before the first line feed and, when
    there is a line feed, the text after it.  Python returns a list of
    one or two elements; [None] stands for the one-element list. *)
Fixpoint split_nl (s : string) : string * option string :=
  match s with
  | EmptyString => (EmptyString, None)
  | String c rest =>
      if Ascii.eqb c newline then (EmptyString, Some rest)
      else let '(h, t) := split_nl rest in (String c h, t)
  end.

(** [s.split()]: maximal runs of non-space characters.  [cur] is the
    token being read, in reverse. *)
Fixpoint split_ws_aux (cur : list ascii) (s : string) : list string :=
  let flush := match cur with
               | [] => []
               | _ => [string_of_list_ascii (rev cur)]
               end in
  match s with
  | EmptyString => flush
  | String c rest =>
      if is_space c then flush ++ split_ws_aux [] rest
      else split_ws_aux (c :: cur) rest
  end.

Definition split_ws (s : string) : list string := split_ws_aux [] s.

End PyStr.

Import PyStr.

(** ** Account notes *)

(** A note as returned by [hydra_client.get_account_notes]: the keys the
    bot reads.  [note.get('isRetired')] is only tested for truth, so an
    absent or falsy value is [false]. *)
Record note := Note {
  note_id : nat;
  subject : string;
  body : string;
  isRetired : bool
}.

#[global] Instance note_eq_dec : EqDecision note.
Proof. solve_decision. Defined.

(** ['Summary (cluster {}): '.format(cluster)] *)
Definition subject_prefix (cluster : string) : string :=
  "Summary (cluster " ++ cluster ++ "): ".

(** The [for note in notes] loop of [get_notes]; [related_notes] is the
    list built so far.  The loop leaves at the first summary note. *)
Fixpoint scan_notes (cluster : string) (notes : list note)
    (related_notes : list note) : option note * list note :=
  match notes with
  | [] => (None, related_notes)
  | note :: rest =>
      if isRetired note then scan_notes cluster rest related_notes
      else if negb (startswith (subject note) (subject_prefix cluster)) then
        if contains cluster (subject note)
        then scan_notes cluster rest (related_notes ++ [note])
        else scan_notes cluster rest related_notes
      else (Some note, related_notes)
  end.

(** [get_notes] once the account's notes have been fetched. *)
Definition get_notes_of (cluster : string) (notes : list note)
    : option note * list note :=
  scan_notes cluster notes [].

(** A note the engine treats as the summary of [cluster]. *)
Definition is_summary (cluster : string) (n : note) : bool :=
  negb (isRetired n) && startswith (subject n) (subject_prefix cluster).

(** A note that mentions [cluster] without being its summary. *)
Definition is_related (cluster : string) (n : note) : bool :=
  negb (isRetired n)
  && negb (startswith (subject n) (subject_prefix cluster))
  && contains cluster (subject n).

(** ** Exceptions and the state monad of the bot *)

(** The argparse parsers of the registry at the end of the file. *)
Inductive parser_id :=
| parser | help_parser | summary_parser | set_summary_parser
| detail_parser | comment_parser.

(** The exceptions the bot sees; all of them derive from [Exception].
    [ParseArgsError] is the [ValueError] whose argument is the dictionary
    built by [ErrorRaisingArgumentParser.exit] (with a status) or
    [.error] (without); [HelpRequest] is the subclass of [ValueError]
    raised by [.print_help]; [ValueError text] is a [ValueError] raised
    by a collaborator, with [str(error) = text]. *)
Inductive exn :=
| ValueError (text : string)
| ParseArgsError (status : option Z) (message : option string)
| HelpRequest (subparser : parser_id)
| NameError (name : string)
| AttributeError (attr : string)
| KeyError (key : string)
| OtherException (text : string).

(** [isinstance(e, ValueError)] *)
Definition is_ValueError (e : exn) : bool :=
  match e with
  | ValueError _ | ParseArgsError _ _ | HelpRequest _ => true
  | _ => false
  end.

(** [str(error)] as the handlers format it.  Only collaborator errors
    reach a handler's [except]; the two parser forms are rendered by
    their message. *)
Definition str_exn (e : exn) : string :=
  match e with
  | ValueError text | OtherException text => text
  | ParseArgsError _ message => default "None" message
  | HelpRequest _ => "parser"
  | NameError name => "name '" ++ name ++ "' is not defined"
  | AttributeError attr => "'Namespace' object has no attribute '" ++ attr ++ "'"
  | KeyError key => "'" ++ key ++ "'"
  end.

Inductive result (A : Type) :=
| Ok (a : A)
| Raise (e : exn).
Arguments Ok {A} a.
Arguments Raise {A} e.

(** A posted chat message: [text=] or [blocks=]. *)
Inductive content :=
| Text (text : string)
| Blocks (blocks : list string).

Record message := Message {
  msg_channel : string;
  msg_thread_ts : Z;
  msg_content : content
}.

Inductive level := DEBUG | INFO | ERROR.

(** A write sent to the Hydra backend. *)
Inductive hydra_write :=
| PostNote (account subject body : string)
| DeleteNote (account : string) (noteID : nat).

(** The mutable state: the module globals [recent_events],
    [comment_counter] and [mention_counter], the notes held by Hydra, the
    messages posted to the chat and the log.  [hydra_writes] records the
    backend writes in the order they were performed. *)
Record world := World {
  recent_events : gset Z;
  comment_counter : gmap string nat;
  mention_counter : gmap string nat;
  account_notes : gmap string (list note);
  hydra_writes : list hydra_write;
  posted : list message;
  log : list (level * string)
}.

Definition M (A : Type) : Type := world -> result A * world.

Definition ret {A} (a : A) : M A := fun w => (Ok a, w).
Definition raise {A} (e : exn) : M A := fun w => (Raise e, w).
Definition bind {A B} (m : M A) (k : A -> M B) : M B :=
  fun w => match m w with
           | (Ok a, w') => k a w'
           | (Raise e, w') => (Raise e, w')
           end.

(** [try: m except <sel> as error: h error]; a state change made by [m]
    before it raised is kept. *)
Definition try_except {A} (m : M A) (sel : exn -> bool) (h : exn -> M A)
    : M A :=
  fun w => match m w with
           | (Ok a, w') => (Ok a, w')
           | (Raise e, w') => if sel e then h e w' else (Raise e, w')
           end.

Definition lift {A} (r : result A) : M A := fun w => (r, w).

Declare Scope bot_scope.
Delimit Scope bot_scope with bot.
Notation "x <- m ;; k" := (bind m (fun x => k))
  (at level 100, m at next level, right associativity) : bot_scope.
Notation "m ;;; k" := (bind m (fun _ => k))
  (at level 100, right associativity) : bot_scope.
Local Open Scope bot_scope.

(** [d[key]] on a key that may be absent. *)
Definition getitem {A} (key : string) (v : option A) : M A :=
  match v with
  | Some a => ret a
  | None => raise (KeyError key)
  end.

(** [logger.debug], [logger.info] and [logger.error]: an entry keeps the
    level and the fixed part of the message; the formatted payload or
    response is left out. *)
Definition logger (l : level) (text : string) : M unit :=
  fun w => (Ok tt,
            World (recent_events w) (comment_counter w) (mention_counter w)
                  (account_notes w) (hydra_writes w) (posted w)
                  (log w ++ [(l, text)])).

(** [counter.labels(label).inc()] *)
Definition inc (label : string) (counter : gmap string nat) : gmap string nat :=
  <[label := S (default 0 (counter !! label))]> counter.

Definition comment_counter_inc (label : string) : M unit :=
  fun w => (Ok tt,
            World (recent_events w) (inc label (comment_counter w))
                  (mention_counter w) (account_notes w) (hydra_writes w)
                  (posted w) (log w)).

Definition mention_counter_inc (label : string) : M unit :=
  fun w => (Ok tt,
            World (recent_events w) (comment_counter w)
                  (inc label (mention_counter w)) (account_notes w)
                  (hydra_writes w) (posted w) (log w)).

(** ** Collaborators *)

(** The [data] dictionary of a Slack message event: the keys the bot
    reads.  Timestamps are numbers of microseconds (Slack's [ts] has six
    decimals), so the float comparisons of the source are exact here. *)
Record data := Data {
  subtype : option string;
  text : option string;
  ts : option Z;
  channel : option string;
  thread_ts : option Z
}.

Record payload := Payload { payload_data : option data }.

(** The mapping returned by [telemetry.subscription]. *)
Record subscription := Subscription {
  sub_ebs_account : option string;
  sub_managed : option string;
  sub_support : option string
}.

(** The handlers registered with [set_defaults(func=...)]. *)
Inductive handler :=
| handle_help_f | handle_summary_f | handle_set_summary_f
| handle_detail_f | handle_comment_f.

(** The [Namespace] returned by [parser.parse_args]: an attribute is
    absent when no subparser set it. *)
Record namespace := Namespace {
  ns_func : option handler;
  ns_cluster : option string
}.

(** The response of [web_client.chat_postMessage]. *)
Record response := Response { ok : bool }.

Inductive hydra_call :=
| get_account_notes | post_account_note | delete_account_note.

(** What the bot does not compute itself: the environment variables, the
    clock, the libraries ([re], [argparse]) and the remote services.
    A remote call either answers or raises; [hydra_fault] says which
    Hydra calls raise during the event at hand. *)
Record env := Env {
  BOT_ID : string;
  time_time : Z;
  uuid_re_match : string -> option string;
  parse_args : list string -> result namespace;
  format_help : parser_id -> string;
  telemetry_subscription : string -> list string -> result subscription;
  telemetry_ebs_account : subscription -> result string;
  info_lines : string -> string -> subscription -> result (list string);
  hydra_fault : hydra_call -> option exn;
  hydra_slot : list note -> nat;
  chat_ok : bool
}.

(** ['<@{}> '.format(os.environ['BOT_ID'])] *)
Definition bot_mention (E : env) : string := "<@" ++ BOT_ID E ++ "> ".

Definition second : Z := 1000000.

(** Modelled from the spec: the Hydra client ([hydra.py]), of which the
    bot uses [get_account_notes], [post_account_note] and
    [delete_account_note].  An account owns a list of notes, listed in
    the backend's order; a created note is not retired, gets an id no
    existing note of the account has, and is listed at the position the
    backend chooses ([slot]); deleting removes the notes with that id. *)
Module Hydra.

Definition notes_of (store : gmap string (list note)) (account : string)
    : list note :=
  default [] (store !! account).

Definition fresh_id (notes : list note) : nat :=
  S (foldr Nat.max 0 (map note_id notes)).

Definition post (slot : list note -> nat) (subject body : string)
    (notes : list note) : list note :=
  take (slot notes) notes
  ++ Note (fresh_id notes) subject body false :: drop (slot notes) notes.

Definition delete (noteID : nat) (notes : list note) : list note :=
  List.filter (fun n => negb (note_id n =? noteID)%nat) notes.

Definition apply_write (slot : list note -> nat) (wr : hydra_write)
    (store : gmap string (list note)) : gmap string (list note) :=
  match wr with
  | PostNote account subject body =>
      <[account := post slot subject body (notes_of store account)]> store
  | DeleteNote account noteID =>
      <[account := delete noteID (notes_of store account)]> store
  end.

End Hydra.

Section Bot.

Variable E : env.

Definition hydra_get_account_notes (account : string) : M (list note) :=
  fun w => match hydra_fault E get_account_notes with
           | Some e => (Raise e, w)
           | None => (Ok (Hydra.notes_of (account_notes w) account), w)
           end.

Definition hydra_write_call (call : hydra_call) (wr : hydra_write) : M unit :=
  fun w => match hydra_fault E call with
           | Some e => (Raise e, w)
           | None =>
               (Ok tt,
                World (recent_events w) (comment_counter w) (mention_counter w)
                      (Hydra.apply_write (hydra_slot E) wr (account_notes w))
                      (hydra_writes w ++ [wr]) (posted w) (log w))
           end.

Definition hydra_post_account_note (account subject body : string) : M unit :=
  hydra_write_call post_account_note (PostNote account subject body).

Definition hydra_delete_account_note (account : string) (noteID : nat) : M unit :=
  hydra_write_call delete_account_note (DeleteNote account noteID).

(** [web_client.chat_postMessage(channel=, thread_ts=, text= | blocks=)] *)
Definition chat_postMessage (channel : string) (thread : Z) (c : content)
    : M response :=
  fun w => (Ok (Response (chat_ok E)),
            World (recent_events w) (comment_counter w) (mention_counter w)
                  (account_notes w) (hydra_writes w)
                  (posted w ++ [Message channel thread c]) (log w)).

(** [telemetry.ebs_account(subscription=telemetry.subscription(cluster=cluster, labels=labels))] *)
Definition resolve_ebs_account (cluster : string) (labels : list string)
    : M string :=
  sub <- lift (telemetry_subscription E cluster labels);;
  lift (telemetry_ebs_account E sub).

(** ** The Summary/Note engine *)

Definition get_notes (cluster ebs_account : string)
    : M (option note * list note) :=
  notes <- hydra_get_account_notes ebs_account;;
  ret (get_notes_of cluster notes).

(** [get_summary] returns [lines, existing_summary, related_notes].  The
    information lines (telemetry facts, entitlements, dashboards and open
    cases) only read collaborators; [info_lines] supplies them. *)
Definition get_summary (cluster : string)
    : M (list string * list string * list note) :=
  sub <- lift (telemetry_subscription E cluster
                 ["ebs_account"; "managed"; "support"]);;
  ebs_account <- lift (telemetry_ebs_account E sub);;
  found <- get_notes cluster ebs_account;;
  lines <- lift (info_lines E cluster ebs_account sub);;
  let existing_summary :=
    match fst found with
    | Some summary => [subject summary; body summary]
    | None => []
    end in
  ret (lines, existing_summary, snd found).

(** [payload['data']['channel']] and
    [payload['data'].get('thread_ts', payload['data']['ts'])]; the default
    is evaluated whether or not [thread_ts] is present. *)
Definition channel_and_thread (d : data) : M (string * Z) :=
  c <- getitem "channel" (channel d);;
  t <- getitem "ts" (ts d);;
  ret (c, default t (thread_ts d)).

(** [args.cluster] *)
Definition args_cluster (args : namespace) : M string :=
  match ns_cluster args with
  | Some c => ret c
  | None => raise (AttributeError "cluster")
  end.

(** [subject, body = body.split('\n', 1)], with the one-line case of the
    [except ValueError] branch. *)
Definition split_subject_body (body : string) : string * string :=
  match split_nl body with
  | (subject, Some rest) => (subject, rest)
  | (_, None) => (body, "")
  end.

(** The literal appended to the body: two line feeds and the
    attribution. *)
Definition attribution : string :=
  "This summary was created by the cluster-support bot.  Workflow docs in https://github.com/openshift/cluster-support-bot/".

Definition footer : string := nl ++ nl ++ attribution.

(** The try block of [handle_set_summary]. *)
Definition set_summary_writes (cluster subject body : string) : M unit :=
  ebs_account <- resolve_ebs_account cluster ["ebs_account"];;
  found <- get_notes cluster ebs_account;;
  hydra_post_account_note ebs_account (subject_prefix cluster ++ subject) body;;;
  match fst found with
  | Some summary => hydra_delete_account_note ebs_account (note_id summary)
  | None => ret tt
  end;;;
  comment_counter_inc cluster.

(** The handlers return inside [except] and after the [try]; [None] from
    the guarded block means it fell through to the final [return]. *)
Definition handle_set_summary (d : data) (args : namespace) (body : string)
    : M (option response) :=
  ct <- channel_and_thread d;;
  cluster <- args_cluster args;;
  let '(subject, body) := split_subject_body body in
  let body := strip (strip body ++ footer) in
  early <- try_except
    (set_summary_writes cluster subject body;;; ret None)
    is_ValueError
    (fun error =>
       r <- chat_postMessage (fst ct) (snd ct)
              (Text (cluster ++ " " ++ str_exn error));;
       ret (Some r));;
  match early with
  | Some r => ret (Some r)
  | None =>
      r <- chat_postMessage (fst ct) (snd ct)
             (Text ("set " ++ cluster ++ " summary to:" ++ nl
                    ++ subject ++ nl ++ body));;
      ret (Some r)
  end.

(** The try block of [handle_comment]. *)
Definition comment_writes (cluster subject body : string) : M unit :=
  ebs_account <- resolve_ebs_account cluster ["ebs_account"];;
  hydra_post_account_note ebs_account
    ("cluster " ++ cluster ++ ": " ++ subject) body;;;
  comment_counter_inc cluster.

Definition handle_comment (d : data) (args : namespace) (body : string)
    : M (option response) :=
  ct <- channel_and_thread d;;
  cluster <- args_cluster args;;
  let '(subject, body) := split_subject_body body in
  early <- try_except
    (comment_writes cluster subject body;;; ret None)
    is_ValueError
    (fun error =>
       r <- chat_postMessage (fst ct) (snd ct)
              (Text (cluster ++ " " ++ str_exn error));;
       ret (Some r));;
  match early with
  | Some r => ret (Some r)
  | None =>
      r <- chat_postMessage (fst ct) (snd ct)
             (Text ("added comment on " ++ cluster ++ ":" ++ nl
                    ++ subject ++ nl ++ body));;
      ret (Some r)
  end.

(** ** Replies that do not touch the backend *)

(** [error] is the caught [ValueError]; only the dictionary forms carry a
    [message].  A collaborator-style [ValueError text] has one argument,
    a string, on which [.get] does not exist. *)
Definition handle_parse_args_error (d : data) (error : exn)
    : M (option response) :=
  ct <- channel_and_thread d;;
  match error with
  | ParseArgsError _ (Some message) =>
      if String.eqb message "" then
        logger ERROR "parse_args error had no message";;; ret None
      else
        r <- chat_postMessage (fst ct) (snd ct) (Text message);;
        ret (Some r)
  | ParseArgsError _ None =>
      logger ERROR "parse_args error had no message";;; ret None
  | _ => raise (AttributeError "get")
  end.

(** [handle_help]; [subparser] defaults to the main [parser]. *)
Definition handle_help (d : data) (subparser : option parser_id)
    : M (option response) :=
  ct <- channel_and_thread d;;
  let message := format_help E (default parser subparser) in
  r <- chat_postMessage (fst ct) (snd ct) (Text message);;
  ret (Some r).

(** [_summary_to_text] *)
Definition _summary_to_text (summary : list note) : string :=
  match summary with
  | [] => "No summary"
  | _ => String.concat nl
           (flat_map (fun line => [subject line; body line]) summary)
  end.

Definition handle_summary (d : data) (args : namespace)
    : M (option response) :=
  ct <- channel_and_thread d;;
  cluster <- args_cluster args;;
  early <- try_except
    (got <- get_summary cluster;;
     ret (inl (fst (fst got))))
    is_ValueError
    (fun error =>
       r <- chat_postMessage (fst ct) (snd ct)
              (Text (cluster ++ " " ++ str_exn error));;
       ret (inr r));;
  match early with
  | inr r => ret (Some r)
  | inl blocks =>
      r <- chat_postMessage (fst ct) (snd ct) (Blocks blocks);;
      ret (Some r)
  end.

Definition handle_detail (d : data) (args : namespace)
    : M (option response) :=
  ct <- channel_and_thread d;;
  cluster <- args_cluster args;;
  early <- try_except
    (got <- get_summary cluster;;
     let '(info, summary, notes) := got in
     ret (inl (info ++ summary
               ++ match notes with
                  | [] => []
                  | _ => [_summary_to_text notes]
                  end)%list))
    is_ValueError
    (fun error =>
       r <- chat_postMessage (fst ct) (snd ct)
              (Text (cluster ++ " " ++ str_exn error));;
       ret (inr r));;
  match early with
  | inr r => ret (Some r)
  | inl blocks =>
      r <- chat_postMessage (fst ct) (snd ct) (Blocks blocks);;
      ret (Some r)
  end.

(** [handler(payload=payload, args=args, body=body)] *)
Definition call_handler (h : handler) (d : data) (args : namespace)
    (body : string) : M (option response) :=
  match h with
  | handle_help_f => handle_help d None
  | handle_summary_f => handle_summary d args
  | handle_set_summary_f => handle_set_summary d args body
  | handle_detail_f => handle_detail d args
  | handle_comment_f => handle_comment d args body
  end.

(** ** Intake *)

Definition handle_uuid_mention (text : string) : M unit :=
  match uuid_re_match E text with
  | Some uuid =>
      logger DEBUG (uuid ++ " mention");;;
      mention_counter_inc uuid
  | None => ret tt
  end.

(** Lines 79 to 85 on the set alone: [false] when the timestamp is
    already in [recent_events]; otherwise the timestamp is added and the
    set is rebuilt from the timestamps above the cutoff. *)
Definition dedup_admit (now timestamp : Z) (recent : gset Z) : bool * gset Z :=
  if decide (timestamp ∈ recent) then (false, recent)
  else
    let cutoff := (now - 60 * 60 * second)%Z in
    (true, filter (fun timestamp => (timestamp > cutoff)%Z)
                  ({[timestamp]} ∪ recent)).

(** The duplicate branch formats the undefined name [message] before it
    can log or return, so it leaves by [NameError]. *)
Definition dedup_gate (timestamp : Z) : M unit :=
  fun w =>
    match dedup_admit (time_time E) timestamp (recent_events w) with
    | (false, _) => (Raise (NameError "message"), w)
    | (true, recent) =>
        (Ok tt,
         World recent (comment_counter w) (mention_counter w)
               (account_notes w) (hydra_writes w) (posted w) (log w))
    end.

(** [user_arg_line, body = (text.strip()+'\n').split('\n', 1)]; the
    appended line feed guarantees two parts. *)
Definition split_command (text : string) : string * string :=
  match split_nl (strip text ++ nl) with
  | (user_arg_line, Some body) => (user_arg_line, body)
  | (user_arg_line, None) => (user_arg_line, "")
  end.

(** The part of [_handle_message] after the duplicate check. *)
Definition dispatch (d : data) (text : string) : M unit :=
  let '(user_arg_line, body) := split_command text in
  let user_args := tail (split_ws user_arg_line) in
  fun w =>
    match parse_args E user_args with
    | Raise (HelpRequest subparser) =>
        (handle_help d (Some subparser);;; ret tt) w
    | Raise error =>
        if is_ValueError error
        then (handle_parse_args_error d error;;; ret tt) w
        else (Raise error, w)
    | Ok args =>
        match ns_func args with
        | None => (Raise (AttributeError "func"), w)
        | Some h =>
            (response <- call_handler h d args body;;
             match response with
             | None => ret tt
             | Some r =>
                 if ok r then logger DEBUG "response"
                 else logger ERROR "response"
             end) w
        end
    end.

Definition _handle_message (p : payload) : M unit :=
  match payload_data p with
  | None => ret tt
  | Some d =>
      match subtype d with
      | Some _ => ret tt
      | None =>
          match text d with
          | None => ret tt
          | Some text =>
              if String.eqb text "" then ret tt
              else
                handle_uuid_mention text;;;
                if negb (startswith text (bot_mention E)) then ret tt
                else
                  logger DEBUG "handle_message";;;
                  dedup_gate (default 0%Z (ts d));;;
                  dispatch d text
          end
      end
  end.

(** The callback registered with [slack.RTMClient.run_on]. *)
Definition handle_message (p : payload) : M unit :=
  try_except (_handle_message p) (fun _ => true)
    (fun e =>
       logger DEBUG ("uncaught Exception in handle_message: " ++ str_exn e)).

End Bot.

(** The event-delivery loop: events are handed to the callback one after
    the other, each with the environment it meets; an exception leaving
    the callback ends the loop. *)
Fixpoint deliver (events : list (env * payload)) : M unit :=
  match events with
  | [] => ret tt
  | (E, p) :: rest => handle_message E p;;; deliver rest
  end.

(** ** The parser registry

    [argparse] (Python 3) on the registry built at the end of the file: a
    main parser with the subcommands [help], [summary ID],
    [set-summary ID], [detail ID] and [comment ID], each with the
    implicit [-h]/[--help] option.  [ErrorRaisingArgumentParser] turns
    [error(message)] into [ValueError({'message': message})] and
    [print_help] into [HelpRequest({'parser': self})].  Subparsers are
    optional in Python 3, so an empty command line parses to an empty
    [Namespace].  The explicit forms [--help=x], [-hx] and the [--]
    separator are not told apart from unknown options. *)
Module Argparse.

Definition is_digit (c : ascii) : bool :=
  let n := nat_of_ascii c in (48 <=? n)%nat && (n <=? 57)%nat.

Fixpoint all_digits (s : string) : bool :=
  match s with
  | EmptyString => true
  | String c rest => is_digit c && all_digits rest
  end.

(** [digits* '.' digits+] or [digits+] *)
Fixpoint number_tail (seen_digit : bool) (s : string) : bool :=
  match s with
  | EmptyString => seen_digit
  | String c rest =>
      if is_digit c then number_tail true rest
      else if Ascii.eqb c "."%char
           then match rest with
                | EmptyString => false
                | _ => all_digits rest
                end
           else false
  end.

(** [^-\d+$|^-\d*\.\d+$] *)
Definition is_negative_number (tok : string) : bool :=
  match tok with
  | String "-"%char rest => number_tail false rest
  | _ => false
  end.

Definition is_help_flag (tok : string) : bool :=
  existsb (String.eqb tok) ["-h"; "--help"; "--hel"; "--he"; "--h"].

(** A token argparse reads as an option string. *)
Definition is_option (tok : string) : bool :=
  match tok with
  | String "-"%char (String _ _) => negb (is_negative_number tok)
  | _ => false
  end.

Definition error {A} (message : string) : result A :=
  Raise (ParseArgsError None (Some message)).

Definition print_help {A} (self : parser_id) : result A :=
  Raise (HelpRequest self).

Definition unrecognized {A} (extras : list string) : result A :=
  error ("unrecognized arguments: " ++ String.concat " " extras).

(** A subparser, with the positional [ID] ([want_ID]) or without:
    returns the cluster, if read, and the tokens left over. *)
Fixpoint parse_sub (self : parser_id) (want_ID : bool) (toks : list string)
    (cluster : option string) (extras : list string)
    : result (option string * list string) :=
  match toks with
  | [] =>
      if want_ID && negb (bool_decide (is_Some cluster))
      then error "the following arguments are required: ID"
      else Ok (cluster, extras)
  | tok :: rest =>
      if is_help_flag tok then print_help self
      else if is_option tok
      then parse_sub self want_ID rest cluster (extras ++ [tok])
      else match want_ID, cluster with
           | true, None => parse_sub self want_ID rest (Some tok) extras
           | _, _ => parse_sub self want_ID rest cluster (extras ++ [tok])
           end
  end.

Definition subcommand (name : string)
    : option (parser_id * handler * bool) :=
  if String.eqb name "help" then Some (help_parser, handle_help_f, false)
  else if String.eqb name "summary"
  then Some (summary_parser, handle_summary_f, true)
  else if String.eqb name "set-summary"
  then Some (set_summary_parser, handle_set_summary_f, true)
  else if String.eqb name "detail"
  then Some (detail_parser, handle_detail_f, true)
  else if String.eqb name "comment"
  then Some (comment_parser, handle_comment_f, true)
  else None.

Fixpoint parse_main (toks : list string) (extras : list string)
    : result namespace :=
  match toks with
  | [] =>
      match extras with
      | [] => Ok (Namespace None None)
      | _ => unrecognized extras
      end
  | tok :: rest =>
      if is_help_flag tok then print_help parser
      else if is_option tok then parse_main rest (extras ++ [tok])
      else
        match subcommand tok with
        | None =>
            error ("argument {help,summary,set-summary,detail,comment}: invalid choice: '"
                   ++ tok ++ "' (choose from 'help', 'summary', 'set-summary', 'detail', 'comment')")
        | Some (self, func, want_ID) =>
            match parse_sub self want_ID rest None [] with
            | Raise e => Raise e
            | Ok (cluster, sub_extras) =>
                match (extras ++ sub_extras)%list with
                | [] => Ok (Namespace (Some func) cluster)
                | all => unrecognized all
                end
            end
        end
  end.

Definition parse_args (user_args : list string) : result namespace :=
  parse_main user_args [].

End Argparse.

(** ** A concrete environment and notes used in the examples *)

Module Sample.

Definition telemetry_ebs_account (sub : subscription) : result string :=
  match sub_ebs_account sub with
  | Some account => Ok account
  | None => Raise (ValueError "has no ebs_account")
  end.

(** Every cluster resolves to the account [acct]; Hydra answers every
    call and lists a new note last; the clock reads [now]. *)
Definition env_at (now : Z) : env :=
  Env "UBOT" now (fun _ => None) Argparse.parse_args (fun _ => "usage")
      (fun _ _ => Ok (Subscription (Some "acct") None None))
      telemetry_ebs_account (fun _ _ _ => Ok [])
      (fun _ => None) (fun notes => length notes) true.

(** The same, with the Hydra call [call] raising [e]. *)
Definition env_failing (call : hydra_call) (e : exn) : env :=
  Env "UBOT" 0 (fun _ => None) Argparse.parse_args (fun _ => "usage")
      (fun _ _ => Ok (Subscription (Some "acct") None None))
      telemetry_ebs_account (fun _ _ _ => Ok [])
      (fun c => match c, call with
                | get_account_notes, get_account_notes
                | post_account_note, post_account_note
                | delete_account_note, delete_account_note => Some e
                | _, _ => None
                end)
      (fun notes => length notes) true.

Definition world_with (notes : list note) : world :=
  World ∅ ∅ ∅ {["acct" := notes]} [] [] [].

Definition old_summary : note := Note 1 "Summary (cluster E): old" "was" false.
Definition second_summary : note := Note 2 "Summary (cluster E): other" "too" false.
Definition comment_on_E : note := Note 3 "cluster E: seen again" "details" false.

Definition message_data (text : string) (ts : Z) : data :=
  Data None (Some text) (Some ts) (Some "C1") None.

End Sample.

(** * Vocabulary of the properties *)

Section Vocabulary.

Variable E : env.

(** The account telemetry resolves a cluster to, or the failure. *)
Definition resolved (cluster : string) (labels : list string) : result string :=
  match telemetry_subscription E cluster labels with
  | Ok sub => telemetry_ebs_account E sub
  | Raise e => Raise e
  end.

(** The store after a sequence of backend writes. *)
Definition replay (writes : list hydra_write)
    (store : gmap string (list note)) : gmap string (list note) :=
  fold_left (fun st wr => Hydra.apply_write (hydra_slot E) wr st) writes store.

(** The state after the backend accepted [writes]. *)
Definition after_writes (writes : list hydra_write) (w : world) : world :=
  World (recent_events w) (comment_counter w) (mention_counter w)
        (replay writes (account_notes w)) (hydra_writes w ++ writes)
        (posted w) (log w).

Definition counted (cluster : string) (w : world) : world :=
  World (recent_events w) (inc cluster (comment_counter w))
        (mention_counter w) (account_notes w) (hydra_writes w)
        (posted w) (log w).

(** The writes [handle_set_summary] sends for a cluster resolved to
    [account]: the new summary note first, then the deletion of the
    summary note found before, if any. *)
Definition summary_post (cluster account subject body : string) : hydra_write :=
  PostNote account (subject_prefix cluster ++ subject) body.

Definition summary_delete (cluster account : string) (w : world)
    : list hydra_write :=
  match fst (get_notes_of cluster (Hydra.notes_of (account_notes w) account)) with
  | Some summary => [DeleteNote account (note_id summary)]
  | None => []
  end.

(** The try block raised [e] before it sent a write: the lookup failed,
    or listing the notes or posting the note was refused. *)
Definition raised_before_write (cluster : string) (e : exn) : Prop :=
  resolved cluster ["ebs_account"] = Raise e
  \/ hydra_fault E get_account_notes = Some e
  \/ hydra_fault E post_account_note = Some e.

(** Every run of the try block of [handle_set_summary] is one of three:
    it raises before any write was accepted; the post is accepted and the
    deletion raises; or all writes are accepted and the counter is
    incremented. *)
Inductive set_summary_run (cluster subject body : string) (w : world)
    : result unit * world -> Prop :=
| run_no_write e :
    raised_before_write cluster e ->
    set_summary_run cluster subject body w (Raise e, w)
| run_delete_failed account e :
    resolved cluster ["ebs_account"] = Ok account ->
    hydra_fault E get_account_notes = None ->
    hydra_fault E post_account_note = None ->
    summary_delete cluster account w <> [] ->
    hydra_fault E delete_account_note = Some e ->
    set_summary_run cluster subject body w
      (Raise e, after_writes [summary_post cluster account subject body] w)
| run_done account :
    resolved cluster ["ebs_account"] = Ok account ->
    hydra_fault E get_account_notes = None ->
    hydra_fault E post_account_note = None ->
    summary_delete cluster account w = []
    \/ hydra_fault E delete_account_note = None ->
    set_summary_run cluster subject body w
      (Ok tt,
       counted cluster
         (after_writes (summary_post cluster account subject body
                        :: summary_delete cluster account w) w)).

(** The state after a reply was posted. *)
Definition replied (channel : string) (thread : Z) (c : content) (w : world)
    : world :=
  World (recent_events w) (comment_counter w) (mention_counter w)
        (account_notes w) (hydra_writes w)
        (posted w ++ [Message channel thread c]) (log w).

(** How a write handler ends, given the run of its try block: the
    confirmation after a completed block, the reply
    ["<cluster> <error>"] after a [ValueError], and the exception itself
    otherwise. *)
Definition finish (channel : string) (thread : Z) (cluster confirmation : string)
    (run : result unit * world) : result (option response) * world :=
  match run with
  | (Ok _, w1) =>
      (Ok (Some (Response (chat_ok E))),
       replied channel thread (Text confirmation) w1)
  | (Raise e, w1) =>
      if is_ValueError e
      then (Ok (Some (Response (chat_ok E))),
            replied channel thread (Text (cluster ++ " " ++ str_exn e)) w1)
      else (Raise e, w1)
  end.

(** The runs of the try block of [handle_comment]: it raises before the
    write, or the note is posted and the counter incremented. *)
Inductive comment_run (cluster subject body : string) (w : world)
    : result unit * world -> Prop :=
| comment_no_write e :
    resolved cluster ["ebs_account"] = Raise e
    \/ hydra_fault E post_account_note = Some e ->
    comment_run cluster subject body w (Raise e, w)
| comment_done account :
    resolved cluster ["ebs_account"] = Ok account ->
    hydra_fault E post_account_note = None ->
    comment_run cluster subject body w
      (Ok tt,
       counted cluster
         (after_writes
            [PostNote account ("cluster " ++ cluster ++ ": " ++ subject) body]
            w)).



(** The writes a handler added to the backend log. *)
Definition new_writes (before after : world) : list hydra_write :=
  drop (length (hydra_writes before)) (hydra_writes after).

End Vocabulary.

Section ClusterVocabulary.

Variable cluster : string.

(** The notes the loop visits: those before the first summary note. *)
Fixpoint visited (notes : list note) : list note :=
  match notes with
  | [] => []
  | n :: rest => if is_summary cluster n then [] else n :: visited rest
  end.

(** The notes of the account once [handle_set_summary] is through. *)
Definition replaced (slot : list note -> nat) (subject body : string)
    (notes : list note) : list note :=
  let posted := Hydra.post slot (subject_prefix cluster ++ subject) body notes in
  match fst (get_notes_of cluster notes) with
  | Some summary => Hydra.delete (note_id summary) posted
  | None => posted
  end.

End ClusterVocabulary.


Definition has_summary (cluster : string) (notes : list note) : Prop :=
  Exists (fun n => is_summary cluster n = true) notes.

Definition never_without_summary_input : env * data * namespace * world :=
  (Sample.env_failing delete_account_note (ValueError "rejected"),
   Sample.message_data "" 5,
   Namespace (Some handle_set_summary_f) (Some "E"),
   Sample.world_with [Sample.comment_on_E; Sample.old_summary]).

Definition set_summary_args : namespace :=
  Namespace (Some handle_set_summary_f) (Some "E").



(** Unfolds the monad and the small steps of the handlers. *)
Ltac run_bot :=
  unfold channel_and_thread, args_cluster, getitem, chat_postMessage,
    try_except, bind, ret, raise, lift, logger in *.

(** ** Frames *)

(** A computation keeps a relation between the state it starts in and
    the state it leaves, whether it returns or raises. *)
Definition keeps {A : Type} (R : world -> world -> Prop) (m : M A) : Prop :=
  forall w, R w (snd (m w)).

(** The state owned by the intake: the dedup window and the mention
    counter. *)
Definition same_intake (w w' : world) : Prop :=
  recent_events w' = recent_events w
  /\ mention_counter w' = mention_counter w.

(** The state owned by the note engine: the backend notes, the writes
    sent to it and the comment counter. *)
Definition same_backend (w w' : world) : Prop :=
  account_notes w' = account_notes w
  /\ hydra_writes w' = hydra_writes w
  /\ comment_counter w' = comment_counter w.

(** A plain user message carrying [text]. *)
Definition plain_message (d : data) (txt : string) : Prop :=
  subtype d = None /\ text d = Some txt /\ txt <> "".

(** The UUID [handle_message] counts for an event: the one matched in the
    text of a plain message. *)
Definition mention_of (E : env) (p : payload) : option string :=
  match payload_data p with
  | Some d =>
      match subtype d, text d with
      | None, Some txt => if String.eqb txt "" then None else uuid_re_match E txt
      | _, _ => None
      end
  | None => None
  end.

(** An event [_handle_message] returns from before it looks at the text:
    no [data], a [subtype], or no text. *)
Definition ignored_event (p : payload) : Prop :=
  match payload_data p with
  | None => True
  | Some d => is_Some (subtype d) \/ text d = None \/ text d = Some ""
  end.

(** A state whose dedup window holds the timestamp 5. *)
Definition seen_once : world :=
  World {[5%Z]} ∅ ∅ ∅ [] [] [].

(** What an event adds to the chat: nothing, or one message in the
    channel and thread of the event. *)
Definition at_most_one_reply (d : data) (w w' : world) : Prop :=
  posted w' = posted w
  \/ exists c t k,
       channel d = Some c /\ ts d = Some t
       /\ posted w' = (posted w ++ [Message c (default t (thread_ts d)) k])%list.

(** The handlers that only read: [help], [summary] and [detail]. *)
Definition read_only (h : handler) : bool :=
  match h with
  | handle_help_f | handle_summary_f | handle_detail_f => true
  | handle_set_summary_f | handle_comment_f => false
  end.

(** The handlers that look the cluster up in telemetry. *)
Definition looks_up (h : handler) : bool :=
  match h with
  | handle_help_f => false
  | _ => true
  end.

(** Telemetry fails for the cluster with [e], whatever labels are asked. *)
Definition lookup_raises (E : env) (cluster : string) (e : exn) : Prop :=
  forall labels, resolved E cluster labels = Raise e.

(** An environment in which telemetry fails with [e] for every cluster. *)
Definition env_without_telemetry (e : exn) : env :=
  Env "UBOT" 0 (fun _ => None) Argparse.parse_args (fun _ => "usage")
      (fun _ _ => Raise e) Sample.telemetry_ebs_account (fun _ _ _ => Ok [])
      (fun _ => None) (fun notes => length notes) true.

(** ** The information lines of [get_summary]

    [get_summary] builds its lines from the subscription, the
    entitlements and the open cases of the account.  These definitions
    compute what [info_lines] stands for; the Hydra reads they need are
    taken from [hydra_reads]. *)

(** An entitlement as returned by [hydra_client.get_entitlements]. *)
Record entitlement := Entitlement {
  ent_name : string;
  supportLevel : string
}.

(** An open case as returned by [hydra_client.get_open_cases]: the keys
    the case line formats. *)
Record case := Case {
  caseNumber : string;
  createdDate : string;
  caseOwner_name : string;
  case_subject : string
}.

(** The Hydra reads of [get_summary].  [get_case_comments] answers with
    [str(...)] of the comments, the text the cluster id is searched in. *)
Record hydra_reads := HydraReads {
  get_entitlements : string -> result (list entitlement);
  get_open_cases : string -> result (list case);
  get_case_comments : string -> result string
}.

(** [sorted(set(xs))] for strings: ascending by code point, without
    duplicates. *)
Fixpoint insert_sorted (x : string) (xs : list string) : list string :=
  match xs with
  | [] => [x]
  | y :: rest =>
      match String.compare x y with
      | Lt => x :: xs
      | Eq => xs
      | Gt => y :: insert_sorted x rest
      end
  end.

Definition sorted_set (xs : list string) : list string :=
  fold_right insert_sorted [] xs.

(** [x or 'None'] *)
Definition or_None (x : string) : string :=
  if String.eqb x "" then "None" else x.

(** [', '.join(sorted(set(e['supportLevel'] for e in ents if keep(e['name']))))] *)
Definition support_levels (keep : string -> bool) (ents : list entitlement)
    : string :=
  String.concat ", "
    (sorted_set (map supportLevel
                   (List.filter (fun e => keep (ent_name e)) ents))).

(** [get_entitlements_summary] once the entitlements have been fetched. *)
Definition entitlements_summary (ents : list entitlement) : string :=
  match ents with
  | [] => "None.  Customer Experience and Engagement (CEE) will not be able to open support cases."
  | _ =>
      "OpenShift: "
      ++ or_None (support_levels (fun name => contains "OpenShift" name) ents)
      ++ ".  Other: "
      ++ or_None (support_levels
                    (fun name => negb (contains "OpenShift" name)) ents)
  end.

Definition get_entitlements_summary (H : hydra_reads) (ebs_account : string)
    : result string :=
  match get_entitlements H ebs_account with
  | Ok ents => Ok (entitlements_summary ents)
  | Raise e => Raise e
  end.

(** [s.split(' ')]: the pieces between single spaces, empty pieces
    included. *)
Fixpoint split_space_aux (cur : list ascii) (s : string) : list string :=
  match s with
  | EmptyString => [string_of_list_ascii (rev cur)]
  | String c rest =>
      if Ascii.eqb c " "%char
      then string_of_list_ascii (rev cur) :: split_space_aux [] rest
      else split_space_aux (c :: cur) rest
  end.

(** [[base for base in os.environ['DASHBOARDS'].split(' ') if base]] *)
Definition dashboard_bases (DASHBOARDS : string) : list string :=
  List.filter (fun base => negb (String.eqb base "")) (split_space_aux [] DASHBOARDS).

(** The list comprehension over the open cases: a case is kept when the
    cluster id occurs in the text of its comments; the comments are
    fetched case by case, and a fetch that raises ends the scan. *)
Fixpoint relevant_cases (H : hydra_reads) (cluster : string)
    (cases : list case) : result (list case) :=
  match cases with
  | [] => Ok []
  | c :: rest =>
      match get_case_comments H (caseNumber c) with
      | Raise e => Raise e
      | Ok comments =>
          match relevant_cases H cluster rest with
          | Raise e => Raise e
          | Ok kept => Ok (if contains cluster comments then c :: kept else kept)
          end
      end
  end.

(** The case line: ['Case {caseNumber} ({createdDate}, {caseOwner[name]}): {subject}'],
    formatted with the keys of the case. *)
Definition case_line (c : case) : string :=
  "Case " ++ caseNumber c ++ " (" ++ createdDate c ++ ", "
  ++ caseOwner_name c ++ "): " ++ case_subject c.

(** The first four lines. *)
Definition head_lines (cluster ebs_account : string) (sub : subscription)
    : list string :=
  [ "Cluster " ++ cluster;
    "Created by Red Hat Customer Portal Account ID " ++ ebs_account;
    "Managed: " ++ default "Unknown" (sub_managed sub);
    "Support: " ++ default "None" (sub_support sub) ].

(** [not subscription.get('support')] *)
Definition no_support (sub : subscription) : bool :=
  match sub_support sub with
  | None => true
  | Some s => String.eqb s ""
  end.

(** The lines of [get_summary], in the order the source computes them:
    the entitlements are fetched before the open cases. *)
Definition summary_lines (H : hydra_reads) (DASHBOARDS : string)
    (cluster ebs_account : string) (sub : subscription)
    : result (list string) :=
  match (if no_support sub
         then match get_entitlements_summary H ebs_account with
              | Ok s => Ok ["Entitlements: " ++ s]
              | Raise e => Raise e
              end
         else Ok []) with
  | Raise e => Raise e
  | Ok entitlement_lines =>
      match get_open_cases H ebs_account with
      | Raise e => Raise e
      | Ok cases =>
          match relevant_cases H cluster cases with
          | Raise e => Raise e
          | Ok kept =>
              Ok (head_lines cluster ebs_account sub
                  ++ entitlement_lines
                  ++ map (fun base => ("Dashboard: " ++ base ++ cluster)%string)
                       (dashboard_bases DASHBOARDS)
                  ++ map case_line kept)%list
          end
      end
  end.

(** Whether the comments of a case mention the cluster, when they can be
    fetched. *)
Definition mentions_cluster (H : hydra_reads) (cluster : string) (c : case)
    : bool :=
  match get_case_comments H (caseNumber c) with
  | Ok comments => contains cluster comments
  | Raise _ => false
  end.

Definition sample_reads : hydra_reads :=
  HydraReads (fun _ => Ok [])
    (fun _ => Ok [Case "1" "Monday" "Ann" "upgrade stuck";
                  Case "2" "Tuesday" "Bob" "billing"])
    (fun number =>
       if String.eqb number "1" then Ok "[cluster ABC does not upgrade]"
       else Raise (OtherException "timed out")).

(** An environment whose information lines are the ones [get_summary]
    computes from the Hydra reads [H] and the dashboards [DASHBOARDS]. *)
Definition env_with_lines (E : env) (H : hydra_reads) (DASHBOARDS : string)
    : env :=
  Env (BOT_ID E) (time_time E) (uuid_re_match E) (parse_args E)
      (format_help E) (telemetry_subscription E) (telemetry_ebs_account E)
      (summary_lines H DASHBOARDS) (hydra_fault E) (hydra_slot E) (chat_ok E).

(** ** The UUID pattern

    [uuid_re], compiled with [re.I], and [uuid_re.match(text)]: any
    characters, the UUID (eight, four, four, four and twelve hexadecimal
    digits with optional hyphens between the groups, the third group
    starting with [4] and the fourth with [8], [9], [a] or [b]), any
    characters.  [.] does not match a line feed, so the UUID lies in the
    first line; the leading [.*] is greedy, so the match found is the one
    that starts last. *)
Module UuidRe.

(** A piece of a pattern: the text it consumes and the text left. *)
Definition matcher : Type := string -> option (string * string).

Definition is_hex (c : ascii) : bool :=
  let n := nat_of_ascii c in
  ((48 <=? n)%nat && (n <=? 57)%nat)
  || ((97 <=? n)%nat && (n <=? 102)%nat)
  || ((65 <=? n)%nat && (n <=? 70)%nat).

(** [[89ab]] under [re.I] *)
Definition is_variant (c : ascii) : bool :=
  existsb (Ascii.eqb c) ["8"; "9"; "a"; "b"; "A"; "B"]%char.

(** One character of a class. *)
Definition one (ok : ascii -> bool) : matcher :=
  fun s => match s with
           | String c rest => if ok c then Some (String c "", rest) else None
           | EmptyString => None
           end.

(** [p q]: [p], then [q] on what is left. *)
Definition then_ (p q : matcher) : matcher :=
  fun s => match p s with
           | Some (a, rest) =>
               match q rest with
               | Some (b, rest') => Some (a ++ b, rest')
               | None => None
               end
           | None => None
           end.

(** [[a-f0-9]{n}] *)
Fixpoint hex (n : nat) : matcher :=
  match n with
  | 0 => fun s => Some ("", s)
  | S n => then_ (one is_hex) (hex n)
  end.

(** [-?]: a hyphen is taken when there is one; what follows never
    matches a hyphen, so there is nothing to backtrack to. *)
Definition hyphen : matcher :=
  fun s => match s with
           | String "-"%char rest => Some ("-", rest)
           | _ => Some ("", s)
           end.

Definition uuid : matcher :=
  then_ (hex 8) (then_ hyphen
  (then_ (hex 4) (then_ hyphen
  (then_ (one (Ascii.eqb "4"%char)) (then_ (hex 3) (then_ hyphen
  (then_ (one is_variant) (then_ (hex 3) (then_ hyphen
  (hex 12)))))))))).

(** The group, matched at the start of [s]. *)
Definition uuid_at (s : string) : option string :=
  match uuid s with
  | Some (found, _) => Some found
  | None => None
  end.

(** The greedy [.*] in front: the latest start in the line wins. *)
Fixpoint search (line : string) : option string :=
  match line with
  | EmptyString => uuid_at line
  | String c rest =>
      match search rest with
      | Some found => Some found
      | None => uuid_at line
      end
  end.

(** [match.groups()[0]] of [uuid_re.match(text)], if it matches. *)
Definition uuid_re_match (text : string) : option string :=
  search (fst (split_nl text)).

End UuidRe.

(** The environment [E] with the UUID pattern of the source. *)
Definition env_with_uuid_re (E : env) : env :=
  Env (BOT_ID E) (time_time E) UuidRe.uuid_re_match (parse_args E)
      (format_help E) (telemetry_subscription E) (telemetry_ebs_account E)
      (info_lines E) (hydra_fault E) (hydra_slot E) (chat_ok E).

(** A cluster id without a closing parenthesis, as every UUID is. *)
Definition plain_id (cluster : string) : Prop :=
  ~ In ")"%char (list_ascii_of_string cluster).

(** An account with the summaries of two clusters. *)
Definition two_clusters : world :=
  Sample.world_with
    [Sample.old_summary; Note 7 "Summary (cluster F): fine" "nothing" false].

(** What a piece of the pattern consumes is the front of its input, of a
    length between [lo] and [hi]. *)
Definition consumes (lo hi : nat) (m : UuidRe.matcher) : Prop :=
  forall s a r, m s = Some (a, r) ->
                s = a ++ r /\ lo <= String.length a <= hi.

(** Strictly ascending. *)
Definition ascending (xs : list string) : Prop :=
  StronglySorted (fun x y => String.compare x y = Lt) xs.

(** * Properties *)

(** ** The scan of [get_notes] *)

Section Scan.

Variable cluster : string.

Lemma scan_notes_summary (notes acc : list note) :
  fst (scan_notes cluster notes acc) = List.find (is_summary cluster) notes.
Proof.
  revert acc; induction notes as [|n rest IH]; intros acc; simpl; [done|].
  unfold is_summary.
  destruct (isRetired n); simpl; [apply IH|].
  destruct (startswith (subject n) (subject_prefix cluster)); simpl; [done|].
  destruct (contains cluster (subject n)); apply IH.
Qed.

Lemma scan_notes_related (notes acc : list note) :
  snd (scan_notes cluster notes acc)
  = (acc ++ List.filter (is_related cluster) (visited cluster notes))%list.
Proof.
  revert acc; induction notes as [|n rest IH]; intros acc.
  - simpl. by rewrite app_nil_r.
  - cbn [scan_notes visited].
    assert (Hrel : is_related cluster n
                   = negb (isRetired n)
                     && negb (startswith (subject n) (subject_prefix cluster))
                     && contains cluster (subject n)) by done.
    unfold is_summary.
    destruct (isRetired n); cbn [negb andb] in *.
    { cbn [List.filter]. rewrite Hrel. apply IH. }
    destruct (startswith (subject n) (subject_prefix cluster));
      cbn [negb andb] in *.
    { simpl. by rewrite app_nil_r. }
    cbn [List.filter]. rewrite Hrel.
    destruct (contains cluster (subject n)); rewrite IH; [|done].
    by rewrite <- app_assoc.
Qed.

Lemma find_first (P : note -> bool) (before rest : list note) (n : note) :
  Forall (fun m => P m = false) before -> P n = true ->
  List.find P (before ++ n :: rest) = Some n.
Proof.
  induction 1 as [|m before Hm _ IH]; intros Hn; simpl.
  - by rewrite Hn.
  - rewrite Hm. by apply IH.
Qed.

End Scan.

(** C4. When the notes of the account hold two or more non-retired notes
    whose subject starts with the reserved prefix of the cluster,
    [get_notes] returns normally, leaves the state alone and returns as
    the summary the first of them in the order the backend lists them. *)
Theorem get_notes_first_summary_wins (E : env) (cluster account : string)
    (w : world) (before rest : list note) (first : note) :
  hydra_fault E get_account_notes = None ->
  Hydra.notes_of (account_notes w) account = (before ++ first :: rest)%list ->
  Forall (fun n => is_summary cluster n = false) before ->
  is_summary cluster first = true ->
  Exists (fun n => is_summary cluster n = true) rest ->
  exists related,
    get_notes E cluster account w = (Ok (Some first, related), w).
Proof.
  intros Hfault Hnotes Hbefore Hfirst _.
  exists (snd (get_notes_of cluster (before ++ first :: rest))).
  unfold get_notes, bind, hydra_get_account_notes, ret.
  rewrite Hfault, Hnotes. f_equal. f_equal.
  rewrite (surjective_pairing (get_notes_of _ _)) at 1. f_equal.
  unfold get_notes_of. rewrite scan_notes_summary.
  by apply find_first.
Qed.

Lemma get_notes_first_summary_wins_witness :
  exists related,
    get_notes (Sample.env_at 0) "E" "acct"
      (Sample.world_with
         [Sample.comment_on_E; Sample.old_summary; Sample.second_summary])
    = (Ok (Some Sample.old_summary, related),
       Sample.world_with
         [Sample.comment_on_E; Sample.old_summary; Sample.second_summary]).
Proof.
  apply (get_notes_first_summary_wins (Sample.env_at 0) "E" "acct"
           (Sample.world_with
              [Sample.comment_on_E; Sample.old_summary; Sample.second_summary])
           [Sample.comment_on_E] [Sample.second_summary] Sample.old_summary).
  - reflexivity.
  - reflexivity.
  - repeat constructor.
  - reflexivity.
  - constructor. reflexivity.
Defined.

(** C5, at the input where the code departs from it: a non-retired note
    that mentions the cluster, does not carry the reserved prefix and is
    listed after the summary note is not among the related notes, because
    the loop stops at the summary note. *)
Theorem get_notes_misses_related_after_summary :
  let notes := [Sample.old_summary; Sample.comment_on_E] in
  isRetired Sample.comment_on_E = false
  /\ contains "E" (subject Sample.comment_on_E) = true
  /\ startswith (subject Sample.comment_on_E) (subject_prefix "E") = false
  /\ get_notes_of "E" notes = (Some Sample.old_summary, []).
Proof. repeat split. Qed.

(** The related notes are exactly the related notes among those listed
    before the first summary note. *)
Lemma get_notes_related_before_summary (cluster : string) (notes : list note) :
  snd (get_notes_of cluster notes)
  = List.filter (is_related cluster) (visited cluster notes).
Proof. unfold get_notes_of. by rewrite scan_notes_related. Qed.

(** C10. Whatever the backend lists, the summary note returned by the
    scan is not retired and no related note is retired. *)
Theorem get_notes_never_returns_retired (cluster : string) (notes : list note) :
  from_option (fun s => isRetired s = false) True
    (fst (get_notes_of cluster notes))
  /\ Forall (fun n => isRetired n = false) (snd (get_notes_of cluster notes)).
Proof.
  split.
  - unfold get_notes_of. rewrite scan_notes_summary.
    destruct (List.find _ _) as [s|] eqn:Hfind; simpl; [|done].
    apply List.find_some in Hfind as [_ Hs].
    unfold is_summary in Hs. by destruct (isRetired s).
  - rewrite get_notes_related_before_summary.
    apply List.Forall_forall. intros n Hn.
    apply List.filter_In in Hn as [_ Hn].
    unfold is_related in Hn. by destruct (isRetired n).
Qed.

(** ** The event deduplicator *)

Section Dedup.

Local Open Scope Z_scope.

Lemma admit_new (now t : Z) (recent : gset Z) :
  t ∉ recent ->
  dedup_admit now t recent
  = (true, filter (fun x => x > now - 60 * 60 * second) ({[t]} ∪ recent)).
Proof. intros Ht. unfold dedup_admit. by rewrite decide_False. Qed.

Lemma admit_seen (now t : Z) (recent : gset Z) :
  t ∈ recent -> dedup_admit now t recent = (false, recent).
Proof. intros Ht. unfold dedup_admit. by rewrite decide_True. Qed.

Lemma admit_true_inv (now t : Z) (recent after : gset Z) :
  dedup_admit now t recent = (true, after) ->
  (t ∉ recent)
  /\ after = filter (fun x => x > now - 60 * 60 * second) ({[t]} ∪ recent).
Proof.
  unfold dedup_admit. destruct (decide (t ∈ recent)); [done|].
  intros [= <-]. done.
Qed.

(** A duplicate stops at the gate: nothing after it runs and the state
    is the one the gate found. *)
Lemma dedup_gate_duplicate (E : env) (timestamp : Z) (w : world) :
  timestamp ∈ recent_events w ->
  dedup_gate E timestamp w = (Raise (NameError "message"), w).
Proof. intros Hin. unfold dedup_gate. by rewrite admit_seen. Qed.

End Dedup.

(** C3, as the code has it.  Admitting a timestamp that is not in the
    window returns true and leaves exactly the timestamps, the new one
    included, that are above the cutoff of one hour before now.  A
    repeated call with the same timestamp while it is within the hour
    (the clock not running backwards) returns false and leaves the window
    as it is.  The timestamp is admitted again once a later admission,
    made when it was an hour old or more, has pruned it. *)
Theorem admit_window (now t : Z) (recent : gset Z) :
  (t ∉ recent) ->
  exists recent1,
    dedup_admit now t recent = (true, recent1)
    /\ (forall x, x ∈ recent1 <->
                  (x = t \/ x ∈ recent) /\ (x > now - 3600 * second)%Z)
    /\ (forall now2, (now <= now2)%Z -> (t > now2 - 3600 * second)%Z ->
                     dedup_admit now2 t recent1 = (false, recent1))
    /\ (forall now3 t3 seen pruned,
           dedup_admit now3 t3 seen = (true, pruned) ->
           (t <= now3 - 3600 * second)%Z ->
           forall now4, fst (dedup_admit now4 t pruned) = true).
Proof.
  intros Ht. eexists. split; [by apply admit_new|].
  assert (Hmem : forall x : Z,
             x ∈ filter (fun x => (x > now - 60 * 60 * second)%Z)
                   (({[t]} : gset Z) ∪ recent)
             <-> (x = t \/ x ∈ recent) /\ (x > now - 3600 * second)%Z).
  { intros x. rewrite elem_of_filter, elem_of_union, elem_of_singleton.
    change (60 * 60)%Z with 3600%Z. tauto. }
  split; [exact Hmem|]. split.
  - intros now2 Hmono Hin. apply admit_seen. apply Hmem.
    split; [by left|]. unfold second in *. lia.
  - intros now3 t3 seen pruned Hadmit Hold now4.
    apply admit_true_inv in Hadmit as [_ ->].
    rewrite admit_new; [done|].
    rewrite elem_of_filter. unfold second in *. lia.
Qed.

Lemma admit_window_witness :
  ((5 : Z) ∉ (∅ : gset Z))
  /\ exists recent1,
    dedup_admit 10 5 ∅ = (true, recent1)
    /\ (forall x, x ∈ recent1 <->
                  (x = 5%Z \/ x ∈ (∅ : gset Z)) /\ (x > 10 - 3600 * second)%Z)
    /\ (forall now2, (10 <= now2)%Z -> (5 > now2 - 3600 * second)%Z ->
                     dedup_admit now2 5 recent1 = (false, recent1))
    /\ (forall now3 t3 seen pruned,
           dedup_admit now3 t3 seen = (true, pruned) ->
           (5 <= now3 - 3600 * second)%Z ->
           forall now4, fst (dedup_admit now4 5 pruned) = true).
Proof.
  split; [apply not_elem_of_empty|].
  apply (admit_window 10 5 ∅). apply not_elem_of_empty.
Defined.

(** C3 as stated fails: a timestamp admitted once is still refused two
    hours later when nothing else was admitted in between, since only an
    admission prunes the window. *)
Lemma admit_refused_after_horizon :
  let first := dedup_admit 0 0 ∅ in
  fst first = true
  /\ fst (dedup_admit (7200 * second) 0 (snd first)) = false.
Proof. vm_compute. done. Qed.

(** ** Strings *)

Lemma prefix_append (p s : string) : String.prefix p (p ++ s) = true.
Proof.
  induction p as [|a p IH]; simpl; [by destruct s|].
  destruct (Ascii.ascii_dec a a); [done|congruence].
Qed.

Lemma startswith_subject_prefix (cluster subject : string) :
  startswith (subject_prefix cluster ++ subject) (subject_prefix cluster) = true.
Proof. apply prefix_append. Qed.

Lemma split_nl_line (line rest : string) :
  ~ In newline (list_ascii_of_string line) ->
  split_nl (line ++ nl ++ rest) = (line, Some rest).
Proof.
  induction line as [|c line IH]; simpl; intros Hno; [done|].
  destruct (Ascii.eqb c newline) eqn:Hc.
  - apply Ascii.eqb_eq in Hc. tauto.
  - rewrite IH; [done|tauto].
Qed.

Lemma split_subject_body_line (line rest : string) :
  ~ In newline (list_ascii_of_string line) ->
  split_subject_body (line ++ nl ++ rest) = (line, rest).
Proof. intros Hno. unfold split_subject_body. by rewrite split_nl_line. Qed.

(** ** The backend model *)

Section HydraFacts.

Variable slot : list note -> nat.

Lemma fresh_id_above (notes : list note) (n : note) :
  In n notes -> (note_id n < Hydra.fresh_id notes)%nat.
Proof.
  unfold Hydra.fresh_id. induction notes as [|m notes IH]; simpl; [done|].
  intros [->|Hin]; [lia|]. specialize (IH Hin). lia.
Qed.

Lemma filter_post (P : note -> bool) (subject body : string) (notes : list note) :
  List.filter P (Hydra.post slot subject body notes)
  = (List.filter P (take (slot notes) notes)
     ++ List.filter P [Note (Hydra.fresh_id notes) subject body false]
     ++ List.filter P (drop (slot notes) notes))%list.
Proof.
  unfold Hydra.post. rewrite List.filter_app. f_equal.
  simpl. by destruct (P _).
Qed.

Lemma post_keeps (subject body : string) (notes : list note) (n : note) :
  In n notes -> In n (Hydra.post slot subject body notes).
Proof.
  intros Hin. unfold Hydra.post.
  rewrite <- (take_drop (slot notes) notes) in Hin.
  apply List.in_app_iff in Hin. apply List.in_app_iff. simpl. tauto.
Qed.

Lemma post_adds (subject body : string) (notes : list note) :
  In (Note (Hydra.fresh_id notes) subject body false)
     (Hydra.post slot subject body notes).
Proof. unfold Hydra.post. apply List.in_app_iff. simpl. tauto. Qed.

Lemma notes_of_insert (store : gmap string (list note)) (account : string)
    (notes : list note) :
  Hydra.notes_of (<[account := notes]> store) account = notes.
Proof. unfold Hydra.notes_of. by rewrite lookup_insert_eq. Qed.

Lemma notes_of_insert_ne (store : gmap string (list note))
    (account other : string) (notes : list note) :
  account <> other ->
  Hydra.notes_of (<[account := notes]> store) other = Hydra.notes_of store other.
Proof. intros Hne. unfold Hydra.notes_of. by rewrite lookup_insert_ne. Qed.

End HydraFacts.

(** ** The write handlers, step by step *)

Section Engine.

Variable E : env.

Lemma resolve_ebs_account_pure (cluster : string) (labels : list string)
    (w : world) :
  resolve_ebs_account E cluster labels w = (resolved E cluster labels, w).
Proof.
  unfold resolve_ebs_account, resolved, bind, lift.
  by destruct (telemetry_subscription E cluster labels).
Qed.

Lemma after_writes_nil (w : world) : after_writes E [] w = w.
Proof. destruct w. unfold after_writes. simpl. by rewrite app_nil_r. Qed.

Lemma after_writes_app (ws1 ws2 : list hydra_write) (w : world) :
  after_writes E ws2 (after_writes E ws1 w) = after_writes E (ws1 ++ ws2) w.
Proof.
  unfold after_writes, replay. simpl.
  by rewrite fold_left_app, <- app_assoc.
Qed.

Lemma hydra_write_call_run (call : hydra_call) (wr : hydra_write) (w : world) :
  hydra_write_call E call wr w
  = match hydra_fault E call with
    | Some e => (Raise e, w)
    | None => (Ok tt, after_writes E [wr] w)
    end.
Proof. unfold hydra_write_call. by destruct (hydra_fault E call). Qed.

Lemma set_summary_writes_run (cluster subject body : string) (w : world) :
  set_summary_run E cluster subject body w
    (set_summary_writes E cluster subject body w).
Proof.
  unfold set_summary_writes, bind at 1.
  rewrite resolve_ebs_account_pure.
  destruct (resolved E cluster ["ebs_account"]) as [account|e] eqn:Hres;
    [|constructor; unfold raised_before_write; by rewrite Hres; left].
  unfold bind at 1, get_notes, bind at 1, hydra_get_account_notes.
  destruct (hydra_fault E get_account_notes) eqn:Hget;
    [constructor; unfold raised_before_write; tauto|].
  unfold ret at 1. unfold bind at 1, hydra_post_account_note.
  rewrite hydra_write_call_run.
  destruct (hydra_fault E post_account_note) eqn:Hpost;
    [constructor; unfold raised_before_write; tauto|].
  fold (summary_post cluster account subject body).
  unfold bind at 1.
  pose proof (eq_refl (summary_delete cluster account w)) as Hdel.
  unfold summary_delete at 2 in Hdel.
  destruct (fst (get_notes_of cluster
                   (Hydra.notes_of (account_notes w) account)))
    as [summary|] eqn:Hfound; cbn [fst].
  - unfold hydra_delete_account_note. rewrite hydra_write_call_run.
    destruct (hydra_fault E delete_account_note) as [e|] eqn:Hfault.
    + apply run_delete_failed; try done. by rewrite Hdel.
    + rewrite after_writes_app. cbn [app]. rewrite <- Hdel.
      apply run_done; try done. by right.
  - unfold ret at 1, comment_counter_inc.
    assert (Hw : after_writes E [summary_post cluster account subject body] w
                 = after_writes E (summary_post cluster account subject body
                                 :: summary_delete cluster account w) w)
      by (by rewrite Hdel).
    rewrite Hw. apply run_done; try done. by left.
Qed.

(** When telemetry resolves the cluster and Hydra accepts every call, the
    block completes. *)
Lemma set_summary_writes_ok (cluster subject body account : string)
    (w : world) :
  resolved E cluster ["ebs_account"] = Ok account ->
  (forall call, hydra_fault E call = None) ->
  set_summary_writes E cluster subject body w
  = (Ok tt,
     counted cluster
       (after_writes E (summary_post cluster account subject body
                      :: summary_delete cluster account w) w)).
Proof.
  intros Hres Hfault.
  destruct (set_summary_writes_run cluster subject body w)
    as [e [He|[He|He]] | account' e _ _ _ _ He | account' Hres' _ _ _];
    rewrite ?Hfault in *; congruence.
Qed.

End Engine.

Section Handlers.

Variable E : env.

Lemma handle_set_summary_run (d : data) (args : namespace) (text : string)
    (w : world) (c : string) (t : Z) (cluster : string) :
  channel d = Some c -> ts d = Some t -> ns_cluster args = Some cluster ->
  handle_set_summary E d args text w
  = let '(subject, body) := split_subject_body text in
    let body := strip (strip body ++ footer) in
    finish E c (default t (thread_ts d)) cluster
      ("set " ++ cluster ++ " summary to:" ++ nl ++ subject ++ nl ++ body)
      (set_summary_writes E cluster subject body w).
Proof.
  intros Hc Ht Hcl.
  unfold handle_set_summary, channel_and_thread, args_cluster.
  rewrite Hc, Ht, Hcl. cbn [getitem].
  destruct (split_subject_body text) as [subject body].
  unfold finish, bind, ret, try_except, chat_postMessage, replied. cbn [fst snd].
  destruct (set_summary_writes E cluster subject _ w) as [[[]|e] w1];
    [done|].
  by destruct (is_ValueError e).
Qed.

Lemma handle_comment_run (d : data) (args : namespace) (text : string)
    (w : world) (c : string) (t : Z) (cluster : string) :
  channel d = Some c -> ts d = Some t -> ns_cluster args = Some cluster ->
  handle_comment E d args text w
  = let '(subject, body) := split_subject_body text in
    finish E c (default t (thread_ts d)) cluster
      ("added comment on " ++ cluster ++ ":" ++ nl ++ subject ++ nl ++ body)
      (comment_writes E cluster subject body w).
Proof.
  intros Hc Ht Hcl.
  unfold handle_comment, channel_and_thread, args_cluster.
  rewrite Hc, Ht, Hcl. cbn [getitem].
  destruct (split_subject_body text) as [subject body].
  unfold finish, bind, ret, try_except, chat_postMessage, replied. cbn [fst snd].
  destruct (comment_writes E cluster subject _ w) as [[[]|e] w1];
    [done|].
  by destruct (is_ValueError e).
Qed.

(** A handler that cannot read its channel, thread or cluster raises
    before it touches anything. *)
Lemma handle_set_summary_malformed (d : data) (args : namespace)
    (text : string) (w : world) :
  channel d = None \/ ts d = None \/ ns_cluster args = None ->
  exists e, handle_set_summary E d args text w = (Raise e, w).
Proof.
  unfold handle_set_summary, channel_and_thread, args_cluster, bind, getitem,
    ret, raise.
  destruct (channel d), (ts d), (ns_cluster args); intros [|[|]];
    try discriminate; eauto.
Qed.

Lemma handle_comment_malformed (d : data) (args : namespace)
    (text : string) (w : world) :
  channel d = None \/ ts d = None \/ ns_cluster args = None ->
  exists e, handle_comment E d args text w = (Raise e, w).
Proof.
  unfold handle_comment, channel_and_thread, args_cluster, bind, getitem,
    ret, raise.
  destruct (channel d), (ts d), (ns_cluster args); intros [|[|]];
    try discriminate; eauto.
Qed.

Lemma comment_writes_run (cluster subject body : string) (w : world) :
  comment_run E cluster subject body w (comment_writes E cluster subject body w).
Proof.
  unfold comment_writes, bind at 1.
  rewrite resolve_ebs_account_pure.
  destruct (resolved E cluster ["ebs_account"]) as [account|e] eqn:Hres;
    [|constructor; by left].
  unfold bind at 1, hydra_post_account_note.
  rewrite hydra_write_call_run.
  destruct (hydra_fault E post_account_note) eqn:Hfault;
    [constructor; by right|].
  by apply comment_done.
Qed.

End Handlers.

(** ** The comment counter *)

Section Counter.

Variable E : env.

Lemma new_writes_after (writes : list hydra_write) (w : world) :
  new_writes w (after_writes E writes w) = writes.
Proof. unfold new_writes, after_writes. simpl. by rewrite drop_app_length. Qed.



Lemma finish_keeps (c : string) (t : Z) (cluster confirmation : string)
    (run : result unit * world) :
  let after := snd (finish E c t cluster confirmation run) in
  comment_counter after = comment_counter (snd run)
  /\ hydra_writes after = hydra_writes (snd run)
  /\ account_notes after = account_notes (snd run).
Proof.
  destruct run as [[[]|e] w1]; simpl; [done|].
  by destruct (is_ValueError e).
Qed.

End Counter.

Lemma inc_lookup (label : string) (counter : gmap string nat) :
  inc label counter !! label = Some (S (default 0 (counter !! label))).
Proof. unfold inc. by rewrite lookup_insert_eq. Qed.

Lemma inc_lookup_ne (label other : string) (counter : gmap string nat) :
  label <> other -> inc label counter !! other = counter !! other.
Proof. intros Hne. unfold inc. by rewrite lookup_insert_ne. Qed.



Lemma inc_changes (label : string) (counter : gmap string nat) :
  inc label counter <> counter.
Proof.
  intros Heq. pose proof (inc_lookup label counter) as Hl.
  rewrite Heq in Hl. destruct (counter !! label); simpl in Hl; [|done].
  injection Hl. lia.
Qed.




(** ** Create, then delete *)

Section CreateThenDelete.

Variable E : env.

Lemma found_summary_in (cluster : string) (notes : list note) (s : note) :
  fst (get_notes_of cluster notes) = Some s ->
  In s notes /\ is_summary cluster s = true.
Proof.
  unfold get_notes_of. rewrite scan_notes_summary. apply List.find_some.
Qed.

Lemma delete_keeps (noteID : nat) (notes : list note) (n : note) :
  In n notes -> note_id n <> noteID -> In n (Hydra.delete noteID notes).
Proof.
  intros Hin Hne. apply List.filter_In. split; [done|].
  apply negb_true_iff, Nat.eqb_neq. done.
Qed.

(** The notes of the account after the first [k] writes of
    [handle_set_summary]. *)
Lemma replay_summary_writes (cluster account subject body : string)
    (w : world) (k : nat) :
  let notes := Hydra.notes_of (account_notes w) account in
  let new := Note (Hydra.fresh_id notes) (subject_prefix cluster ++ subject)
                  body false in
  k = 0
  \/ In new (Hydra.notes_of
               (replay E (take k (summary_post cluster account subject body
                                  :: summary_delete cluster account w))
                         (account_notes w)) account).
Proof.
  cbv zeta. destruct k as [|k]; [by left|right].
  cbn [take]. unfold replay. cbn [fold_left Hydra.apply_write summary_post].
  unfold summary_delete.
  destruct (fst (get_notes_of cluster _)) as [s|] eqn:Hfound.
  - destruct k as [|k]; cbn [take fold_left Hydra.apply_write].
    + rewrite notes_of_insert. apply post_adds.
    + rewrite take_nil. cbn [fold_left]. rewrite !notes_of_insert.
      apply delete_keeps; [apply post_adds|]. cbn [note_id].
      apply found_summary_in in Hfound as [Hin _].
      apply fresh_id_above in Hin. lia.
  - rewrite take_nil. cbn [fold_left]. rewrite notes_of_insert.
    apply post_adds.
Qed.

Lemma set_summary_writes_log (cluster subject body : string) (w : world) :
  let after := snd (set_summary_writes E cluster subject body w) in
  account_notes after = replay E (new_writes w after) (account_notes w)
  /\ (new_writes w after = []
      \/ exists account,
           resolved E cluster ["ebs_account"] = Ok account
           /\ exists k,
                new_writes w after
                = take k (summary_post cluster account subject body
                          :: summary_delete cluster account w)).
Proof.
  assert (Hnone : new_writes w w = []).
  { unfold new_writes. by rewrite drop_all. }
  destruct (set_summary_writes_run E cluster subject body w)
    as [e _ | account e Hres _ _ _ _ | account Hres _ _ _]; cbn [snd].
  - rewrite Hnone. split; [done|by left].
  - rewrite new_writes_after. split; [done|].
    right. exists account. split; [done|]. by exists 1.
  - change (new_writes w (counted cluster ?x)) with (new_writes w x).
    rewrite new_writes_after. split; [done|].
    right. exists account. split; [done|].
    exists (length (summary_post cluster account subject body
                    :: summary_delete cluster account w)).
    by rewrite firstn_all.
Qed.

End CreateThenDelete.

Lemma handle_set_summary_log (E : env) (d : data) (args : namespace)
    (text : string) (w : world) (cluster account : string) :
  ns_cluster args = Some cluster ->
  resolved E cluster ["ebs_account"] = Ok account ->
  let after := snd (handle_set_summary E d args text w) in
  account_notes after = replay E (new_writes w after) (account_notes w)
  /\ exists subject body k,
       new_writes w after
       = take k (summary_post cluster account subject body
                 :: summary_delete cluster account w).
Proof.
  intros Hcl Hres.
  assert (Hnone : new_writes w w = []).
  { unfold new_writes. by rewrite drop_all. }
  destruct (channel d) as [c|] eqn:Hc, (ts d) as [t|] eqn:Ht.
  2-4: destruct (handle_set_summary_malformed E d args text w) as [e ->];
    [rewrite Hc, Ht; tauto| cbn [snd]];
    rewrite Hnone; split; [done|]; by exists "", "", 0.
  rewrite (handle_set_summary_run E d args text w c t cluster) by done.
  destruct (split_subject_body text) as [subject body].
  destruct (finish_keeps E c (default t (thread_ts d)) cluster
              ("set " ++ cluster ++ " summary to:" ++ nl ++ subject ++ nl
               ++ strip (strip body ++ footer))
              (set_summary_writes E cluster subject
                 (strip (strip body ++ footer)) w)) as (_ & Hwr & Hst).
  destruct (set_summary_writes_log E cluster subject
              (strip (strip body ++ footer)) w) as [Hlog Hwrites].
  cbv zeta in *. unfold new_writes in *. rewrite Hwr, Hst.
  split; [done|]. exists subject, (strip (strip body ++ footer)).
  destruct Hwrites as [-> | (account' & Hres' & k & ->)]; [by exists 0|].
  exists k. congruence.
Qed.

(** C2. [handle_set_summary] sends the deletion of the old summary note
    only after the backend accepted the new one: the writes it performed
    are an initial part of [post; delete], the notes of the account are the
    result of exactly these writes, and when the account had a summary
    note of the cluster before the call it has one after every initial
    part of them, whichever call fails. *)
Theorem set_summary_never_without_summary (E : env) (d : data)
    (args : namespace) (text : string) (w : world)
    (cluster account : string) :
  ns_cluster args = Some cluster ->
  resolved E cluster ["ebs_account"] = Ok account ->
  has_summary cluster (Hydra.notes_of (account_notes w) account) ->
  let after := snd (handle_set_summary E d args text w) in
  account_notes after = replay E (new_writes w after) (account_notes w)
  /\ (exists subject body k,
        new_writes w after
        = take k (summary_post cluster account subject body
                  :: summary_delete cluster account w))
  /\ forall j,
       has_summary cluster
         (Hydra.notes_of
            (replay E (take j (new_writes w after)) (account_notes w))
            account).
Proof.
  intros Hcl Hres Hbefore.
  destruct (handle_set_summary_log E d args text w cluster account Hcl Hres)
    as (Hlog & subj & text' & k & Hwrites).
  cbv zeta. split; [done|]. split; [by eauto|].
  intros j. rewrite Hwrites, take_take.
  destruct (replay_summary_writes E cluster account subj text' w (j `min` k))
    as [-> | Hnew].
  - done.
  - apply List.Exists_exists. eexists. split; [exact Hnew|].
    unfold is_summary. cbn [isRetired subject negb andb].
    apply startswith_subject_prefix.
Qed.

Lemma set_summary_never_without_summary_witness :
  let '(E, d, args, w) := never_without_summary_input in
  let after := snd (handle_set_summary E d args ("new" ++ nl ++ "text") w) in
  account_notes after = replay E (new_writes w after) (account_notes w)
  /\ (exists subject body k,
        new_writes w after
        = take k (summary_post "E" "acct" subject body
                  :: summary_delete "E" "acct" w))
  /\ forall j,
       has_summary "E"
         (Hydra.notes_of
            (replay E (take j (new_writes w after)) (account_notes w))
            "acct").
Proof.
  apply (set_summary_never_without_summary
           (Sample.env_failing delete_account_note (ValueError "rejected"))
           (Sample.message_data "" 5)
           (Namespace (Some handle_set_summary_f) (Some "E"))
           ("new" ++ nl ++ "text")
           (Sample.world_with [Sample.comment_on_E; Sample.old_summary])
           "E" "acct").
  - reflexivity.
  - reflexivity.
  - apply Exists_cons_tl, Exists_cons_hd. reflexivity.
Defined.

(** ** Replacing the summary *)

Section Replace.

Variable cluster : string.

Lemma find_head_filter (P : note -> bool) (notes : list note) :
  List.find P notes = head (List.filter P notes).
Proof.
  induction notes as [|n notes IH]; simpl; [done|]. by destruct (P n).
Qed.

Lemma filter_filter_comm (P Q : note -> bool) (notes : list note) :
  List.filter P (List.filter Q notes) = List.filter Q (List.filter P notes).
Proof.
  induction notes as [|n notes IH]; simpl; [done|].
  destruct (P n) eqn:HP, (Q n) eqn:HQ; simpl; rewrite ?HP, ?HQ, IH; done.
Qed.

Lemma filter_take_drop (P : note -> bool) (k : nat) (notes : list note) :
  (List.filter P (take k notes) ++ List.filter P (drop k notes))%list
  = List.filter P notes.
Proof. by rewrite <- List.filter_app, take_drop. Qed.

Lemma summaries_replaced (slot : list note -> nat) (subj text : string)
    (notes : list note) :
  length (List.filter (is_summary cluster) notes) <= 1 ->
  List.filter (is_summary cluster) (replaced cluster slot subj text notes)
  = [Note (Hydra.fresh_id notes) (subject_prefix cluster ++ subj) text false].
Proof.
  intros Hone. unfold replaced, get_notes_of.
  rewrite scan_notes_summary, find_head_filter.
  set (new := Note (Hydra.fresh_id notes) (subject_prefix cluster ++ subj)
                   text false).
  assert (Hnew : List.filter (is_summary cluster) [new] = [new]).
  { cbn [List.filter]. unfold is_summary, new. cbn [isRetired subject negb andb].
    by rewrite startswith_subject_prefix. }
  pose proof (filter_take_drop (is_summary cluster) (slot notes) notes) as Hsplit.
  destruct (List.filter (is_summary cluster) notes) as [|s [|s' rest]] eqn:Hf;
    simpl in Hone; [| |lia]; cbn [head].
  - apply app_eq_nil in Hsplit as [Ht Hd].
    rewrite filter_post. fold new. by rewrite Ht, Hd, Hnew.
  - unfold Hydra.delete. rewrite filter_filter_comm, filter_post.
    fold new. rewrite Hnew.
    rewrite !List.filter_app.
    assert (Hin : In s notes).
    { eapply proj1, List.filter_In. rewrite Hf. by left. }
    apply (fresh_id_above notes) in Hin.
    assert (Hkeep : List.filter (fun n => negb (note_id n =? note_id s)%nat)
                      [new] = [new]).
    { cbn [List.filter]. unfold new at 1. cbn [note_id].
      replace (Hydra.fresh_id notes =? note_id s)%nat with false; [done|].
      symmetry. apply Nat.eqb_neq. lia. }
    assert (Hnil : List.filter (fun n => negb (note_id n =? note_id s)%nat)
                (List.filter (is_summary cluster) (take (slot notes) notes)
                 ++ List.filter (is_summary cluster) (drop (slot notes) notes))
              = []).
    { rewrite Hsplit. cbn [List.filter]. by rewrite Nat.eqb_refl. }
    rewrite List.filter_app in Hnil. apply app_eq_nil in Hnil as [-> ->].
    by rewrite Hkeep.
Qed.

End Replace.

(** ** What [strip] does to the body *)

Lemma lstrip_length (s : string) :
  String.length (lstrip s) <= String.length s.
Proof.
  induction s as [|c s IH]; simpl; [done|].
  destruct (is_space c); simpl; lia.
Qed.

Lemma rstrip_length (s : string) :
  String.length (rstrip s) <= String.length s.
Proof.
  induction s as [|c s IH]; simpl; [done|].
  destruct (rstrip s); [destruct (is_space c)|]; simpl in *; lia.
Qed.

Lemma append_cons (c : ascii) (s1 s2 : string) :
  String c s1 ++ s2 = String c (s1 ++ s2).
Proof. reflexivity. Qed.

Lemma append_empty (s : string) : "" ++ s = s.
Proof. reflexivity. Qed.

Lemma rstrip_append (s1 s2 : string) :
  rstrip s2 = s2 -> s2 <> "" -> rstrip (s1 ++ s2) = s1 ++ s2.
Proof.
  intros Hs2 Hne. induction s1 as [|c s1 IH].
  - by rewrite append_empty.
  - rewrite append_cons. cbn [rstrip]. rewrite IH.
    destruct (s1 ++ s2) eqn:Happ; [|done].
    destruct s1; [rewrite append_empty in Happ|rewrite append_cons in Happ];
      congruence.
Qed.

Lemma strip_fixed_head (c : ascii) (s : string) :
  strip (String c s) = String c s -> is_space c = false.
Proof.
  intros Hfix. destruct (is_space c) eqn:Hc; [|done].
  pose proof (rstrip_length (lstrip s)) as H1.
  pose proof (lstrip_length s) as H2.
  apply (f_equal String.length) in Hfix.
  unfold strip in Hfix. simpl in Hfix. rewrite Hc in Hfix. lia.
Qed.

(** A body without surrounding white space is kept and followed by the
    footer; an empty body leaves the attribution alone. *)
Lemma strip_body_clean (b : string) :
  strip b = b -> b <> "" -> strip (strip b ++ footer) = b ++ footer.
Proof.
  intros Hfix Hne. rewrite Hfix. destruct b as [|c b]; [done|].
  apply strip_fixed_head in Hfix.
  unfold strip. rewrite append_cons. cbn [lstrip]. rewrite Hfix.
  rewrite <- append_cons.
  apply rstrip_append; [|done]. by vm_compute.
Qed.

Lemma strip_body_empty : strip (strip "" ++ footer) = attribution.
Proof. by vm_compute. Qed.

(** ** Round trip: set the summary, then resolve it *)

Lemma replay_replaced (E : env) (cluster account subj text : string)
    (w : world) :
  Hydra.notes_of
    (replay E (summary_post cluster account subj text
               :: summary_delete cluster account w) (account_notes w))
    account
  = replaced cluster (hydra_slot E) subj text
      (Hydra.notes_of (account_notes w) account).
Proof.
  unfold replay, summary_delete, replaced, summary_post.
  destruct (fst (get_notes_of cluster _));
    cbn [fold_left Hydra.apply_write]; by rewrite !notes_of_insert.
Qed.

Lemma get_notes_run (E : env) (cluster account : string) (w : world) :
  hydra_fault E get_account_notes = None ->
  get_notes E cluster account w
  = (Ok (get_notes_of cluster (Hydra.notes_of (account_notes w) account)), w).
Proof.
  intros Hfault. unfold get_notes, bind, hydra_get_account_notes, ret.
  by rewrite Hfault.
Qed.

(** C1, as the code has it.  When the event is well formed, telemetry
    resolves the cluster, Hydra accepts every call, the subject is one
    line and the account holds at most one summary note of the cluster,
    [handle_set_summary] on the subject line followed by the body returns
    normally, and [get_notes] then returns as the summary the one summary
    note the account has: its subject is the reserved prefix followed by
    the subject line, and its body is the stripped body, the footer and a
    final strip, which is the body followed by the two line feeds and the
    attribution when the body is not empty and has no surrounding white
    space, and the attribution alone when the body is empty. *)
Theorem set_summary_then_get_notes (E : env) (d : data) (args : namespace)
    (w : world) (c : string) (t : Z) (cluster account S B : string) :
  channel d = Some c -> ts d = Some t -> ns_cluster args = Some cluster ->
  resolved E cluster ["ebs_account"] = Ok account ->
  (forall call, hydra_fault E call = None) ->
  ~ In newline (list_ascii_of_string S) ->
  length (List.filter (is_summary cluster)
            (Hydra.notes_of (account_notes w) account)) <= 1 ->
  exists r w1 new related,
    handle_set_summary E d args (S ++ nl ++ B) w = (Ok r, w1)
    /\ get_notes E cluster account w1 = (Ok (Some new, related), w1)
    /\ List.filter (is_summary cluster)
         (Hydra.notes_of (account_notes w1) account) = [new]
    /\ subject new = subject_prefix cluster ++ S
    /\ body new = strip (strip B ++ footer)
    /\ (strip B = B -> B <> "" -> body new = B ++ footer)
    /\ (B = "" -> body new = attribution).
Proof.
  intros Hc Ht Hcl Hres Hfault Hline Hone.
  rewrite (handle_set_summary_run E d args _ w c t cluster) by done.
  rewrite split_subject_body_line by done. cbv beta iota zeta.
  rewrite (set_summary_writes_ok E cluster S _ account w) by done.
  cbn [finish].
  set (final := replaced cluster (hydra_slot E) S (strip (strip B ++ footer))
                  (Hydra.notes_of (account_notes w) account)).
  set (new := Note (Hydra.fresh_id (Hydra.notes_of (account_notes w) account))
                   (subject_prefix cluster ++ S)
                   (strip (strip B ++ footer)) false).
  assert (Hfinal : List.filter (is_summary cluster) final = [new])
    by (by apply summaries_replaced).
  eexists _, _, new, (snd (get_notes_of cluster final)).
  split; [reflexivity|].
  rewrite get_notes_run by done.
  cbn [replied counted after_writes account_notes].
  rewrite replay_replaced. fold final.
  split; [|split; [done|]].
  - f_equal. f_equal.
    rewrite (surjective_pairing (get_notes_of cluster final)) at 1. f_equal.
    unfold get_notes_of.
    by rewrite scan_notes_summary, find_head_filter, Hfinal.
  - unfold new. cbn [subject body].
    split; [done|]. split; [done|]. split.
    + apply strip_body_clean.
    + intros ->. apply strip_body_empty.
Qed.

Lemma set_summary_then_get_notes_witness :
  let E := Sample.env_at 0 in
  let w := Sample.world_with [Sample.comment_on_E; Sample.old_summary] in
  exists r w1 new related,
    handle_set_summary E (Sample.message_data "" 5) set_summary_args
      ("new" ++ nl ++ "text") w = (Ok r, w1)
    /\ get_notes E "E" "acct" w1 = (Ok (Some new, related), w1)
    /\ List.filter (is_summary "E")
         (Hydra.notes_of (account_notes w1) "acct") = [new]
    /\ subject new = subject_prefix "E" ++ "new"
    /\ body new = strip (strip "text" ++ footer)
    /\ (strip "text" = "text" -> "text" <> "" -> body new = "text" ++ footer)
    /\ ("text" = "" -> body new = attribution).
Proof.
  apply (set_summary_then_get_notes (Sample.env_at 0)
           (Sample.message_data "" 5) set_summary_args
           (Sample.world_with [Sample.comment_on_E; Sample.old_summary])
           "C1" 5 "E" "acct" "new" "text").
  - reflexivity.
  - reflexivity.
  - reflexivity.
  - reflexivity.
  - intros call. reflexivity.
  - intros H. repeat destruct H as [H|H]; try discriminate H. exact H.
  - vm_compute. lia.
Defined.

(** C1 as stated fails on the code.  A body with leading white space is
    not kept: the stored body does not even start with it.  And when the
    account already holds two summary notes of the cluster, the note that
    is resolved afterwards is the older of the two that remain, not the
    one that was set. *)
Lemma set_summary_round_trip_fails :
  let E := Sample.env_at 0 in
  let d := Sample.message_data "" 5 in
  (exists r w1 new related,
     handle_set_summary E d set_summary_args ("S" ++ nl ++ " x")
       (Sample.world_with []) = (Ok r, w1)
     /\ get_notes E "E" "acct" w1 = (Ok (Some new, related), w1)
     /\ String.prefix " x" (body new) = false
     /\ body new = "x" ++ footer)
  /\ (exists r w1 related,
        handle_set_summary E d set_summary_args ("S" ++ nl ++ "B")
          (Sample.world_with [Sample.old_summary; Sample.second_summary])
        = (Ok r, w1)
        /\ get_notes E "E" "acct" w1
           = (Ok (Some Sample.second_summary, related), w1)
        /\ length (List.filter (is_summary "E")
                     (Hydra.notes_of (account_notes w1) "acct")) = 2).
Proof.
  split.
  - eexists _, _, _, _. split; [vm_compute; reflexivity|].
    split; [vm_compute; reflexivity|]. split; vm_compute; reflexivity.
  - eexists _, _, _. split; [vm_compute; reflexivity|].
    split; vm_compute; reflexivity.
Qed.

(** ** Comments leave the other notes alone *)

Lemma comment_not_summary (cluster other subj text : string) (id : nat) :
  is_summary other (Note id ("cluster " ++ cluster ++ ": " ++ subj) text false)
  = false.
Proof. unfold is_summary, startswith, subject_prefix. reflexivity. Qed.

(** What [handle_comment] does to the notes of the backend: nothing, or
    one accepted post to the account of the cluster. *)
Lemma handle_comment_notes (E : env) (d : data) (args : namespace)
    (text : string) (w : world) :
  let after := snd (handle_comment E d args text w) in
  (account_notes after = account_notes w /\ new_writes w after = [])
  \/ exists cluster account,
       ns_cluster args = Some cluster
       /\ resolved E cluster ["ebs_account"] = Ok account
       /\ hydra_fault E post_account_note = None
       /\ new_writes w after
          = [PostNote account
               ("cluster " ++ cluster ++ ": " ++ fst (split_subject_body text))
               (snd (split_subject_body text))]
       /\ account_notes after
          = <[account :=
                Hydra.post (hydra_slot E)
                  ("cluster " ++ cluster ++ ": " ++ fst (split_subject_body text))
                  (snd (split_subject_body text))
                  (Hydra.notes_of (account_notes w) account)]>
              (account_notes w).
Proof.
  assert (Hnone : new_writes w w = []).
  { unfold new_writes. by rewrite drop_all. }
  destruct (channel d) as [c|] eqn:Hc, (ts d) as [t|] eqn:Ht,
    (ns_cluster args) as [cluster|] eqn:Hcl.
  2-8: destruct (handle_comment_malformed E d args text w) as [e ->];
    [rewrite Hc, Ht, Hcl; tauto| by left].
  rewrite (handle_comment_run E d args text w c t cluster) by done.
  destruct (split_subject_body text) as [subj rest]. cbn [fst snd].
  destruct (finish_keeps E c (default t (thread_ts d)) cluster
              ("added comment on " ++ cluster ++ ":" ++ nl ++ subj ++ nl
               ++ rest)
              (comment_writes E cluster subj rest w)) as (_ & Hwr & Hst).
  cbv zeta in *. unfold new_writes in *. rewrite Hst, Hwr.
  destruct (comment_writes_run E cluster subj rest w)
    as [e _ | account Hres Hpost]; cbn [snd]; [by left|].
  right. exists cluster, account.
  cbn [counted hydra_writes account_notes after_writes].
  rewrite drop_app_length. by repeat split.
Qed.

Lemma handle_comment_ok (E : env) (d : data) (args : namespace)
    (text : string) (w : world) (c : string) (t : Z)
    (cluster account : string) :
  channel d = Some c -> ts d = Some t -> ns_cluster args = Some cluster ->
  resolved E cluster ["ebs_account"] = Ok account ->
  hydra_fault E post_account_note = None ->
  let after := snd (handle_comment E d args text w) in
  new_writes w after
  = [PostNote account
       ("cluster " ++ cluster ++ ": " ++ fst (split_subject_body text))
       (snd (split_subject_body text))]
  /\ account_notes after = replay E (new_writes w after) (account_notes w).
Proof.
  intros Hc Ht Hcl Hres Hpost.
  rewrite (handle_comment_run E d args text w c t cluster) by done.
  destruct (split_subject_body text) as [subj rest]. cbn [fst snd].
  destruct (finish_keeps E c (default t (thread_ts d)) cluster
              ("added comment on " ++ cluster ++ ":" ++ nl ++ subj ++ nl
               ++ rest)
              (comment_writes E cluster subj rest w)) as (_ & Hwr & Hst).
  cbv zeta in *. unfold new_writes in *. rewrite Hwr, Hst.
  destruct (comment_writes_run E cluster subj rest w)
    as [e [He|He] | account' Hres' _]; [congruence..|].
  cbn [snd counted hydra_writes account_notes after_writes].
  rewrite drop_app_length. split; [congruence|done].
Qed.

(** C6. [handle_comment] sends no deletion.  The notes of every account
    after the call are the notes before it, unchanged and in their order,
    with at most one note added, whose subject starts with
    ["cluster <id>: "]; so the summary notes of every cluster, and the
    summary [get_notes] resolves, are the same before and after.  When
    the event is well formed, telemetry resolves the cluster and the
    backend accepts the post, exactly one note is added to the account of
    the cluster. *)
Theorem comment_adds_one_note_and_keeps_the_rest (E : env) (d : data)
    (args : namespace) (text : string) (w : world) :
  let after := snd (handle_comment E d args text w) in
  let notes_before := Hydra.notes_of (account_notes w) in
  let notes_after := Hydra.notes_of (account_notes after) in
  (forall wr, In wr (new_writes w after) ->
              exists account subj body, wr = PostNote account subj body)
  /\ (forall account, exists before added behind,
        notes_before account = (before ++ behind)%list
        /\ notes_after account = (before ++ added ++ behind)%list
        /\ (added = []
            \/ exists cluster id,
                 ns_cluster args = Some cluster
                 /\ added
                    = [Note id
                         ("cluster " ++ cluster ++ ": "
                          ++ fst (split_subject_body text))
                         (snd (split_subject_body text)) false]))
  /\ (forall account cluster,
        List.filter (is_summary cluster) (notes_after account)
        = List.filter (is_summary cluster) (notes_before account)
        /\ fst (get_notes_of cluster (notes_after account))
           = fst (get_notes_of cluster (notes_before account)))
  /\ (forall c t cluster account,
        channel d = Some c -> ts d = Some t ->
        ns_cluster args = Some cluster ->
        resolved E cluster ["ebs_account"] = Ok account ->
        hydra_fault E post_account_note = None ->
        exists before behind,
          notes_before account = (before ++ behind)%list
          /\ notes_after account
             = (before
                ++ [Note (Hydra.fresh_id (notes_before account))
                      ("cluster " ++ cluster ++ ": "
                       ++ fst (split_subject_body text))
                      (snd (split_subject_body text)) false]
                ++ behind)%list).
Proof.
  cbv zeta.
  assert (Hframe : forall account, exists before added behind,
    Hydra.notes_of (account_notes w) account = (before ++ behind)%list
    /\ Hydra.notes_of
         (account_notes (snd (handle_comment E d args text w))) account
       = (before ++ added ++ behind)%list
    /\ (added = []
        \/ exists cluster id,
             ns_cluster args = Some cluster
             /\ added
                = [Note id
                     ("cluster " ++ cluster ++ ": "
                      ++ fst (split_subject_body text))
                     (snd (split_subject_body text)) false])).
  { intros account.
    destruct (handle_comment_notes E d args text w)
      as [[-> _] | (cluster & acct & Hcl & _ & _ & _ & ->)].
    - exists (Hydra.notes_of (account_notes w) account), [], [].
      rewrite !app_nil_r. split; [done|]. split; [done|]. by left.
    - destruct (decide (acct = account)) as [->|Hne].
      + rewrite notes_of_insert. unfold Hydra.post.
        eexists (take _ _), [_], (drop _ _).
        rewrite take_drop. split; [done|]. split; [done|]. right. eauto.
      + rewrite notes_of_insert_ne by done.
        exists (Hydra.notes_of (account_notes w) account), [], [].
        rewrite !app_nil_r. split; [done|]. split; [done|]. by left. }
  split; [|split; [exact Hframe|split]].
  - intros wr.
    destruct (handle_comment_notes E d args text w)
      as [[_ ->] | (cluster & acct & _ & _ & _ & -> & _)]; [done|].
    intros [<-|[]]. eauto.
  - intros account cluster.
    destruct (Hframe account) as (before & added & behind & -> & -> & Hadd).
    assert (Hsame : List.filter (is_summary cluster) (before ++ added ++ behind)
                    = List.filter (is_summary cluster) (before ++ behind)).
    { rewrite !List.filter_app.
      destruct Hadd as [->|(cl & id & _ & ->)]; [done|].
      cbn [List.filter]. by rewrite comment_not_summary. }
    split; [done|]. unfold get_notes_of.
    by rewrite !scan_notes_summary, !find_head_filter, Hsame.
  - intros c t cluster account Hc Ht Hcl Hres Hpost.
    destruct (handle_comment_notes E d args text w)
      as [[_ Hno] | (cluster' & acct & Hcl' & Hres' & _ & _ & ->)].
    + destruct (handle_comment_ok E d args text w c t cluster account)
        as [Hwr _]; try done. cbv zeta in Hwr. congruence.
    + assert (cluster' = cluster) as -> by congruence.
      assert (acct = account) as -> by congruence.
      rewrite notes_of_insert. unfold Hydra.post.
      eexists (take _ _), (drop _ _). by rewrite take_drop.
Qed.

Lemma comment_adds_one_note_example :
  let E := Sample.env_at 0 in
  let w := Sample.world_with [Sample.old_summary] in
  let after :=
    snd (handle_comment E (Sample.message_data "" 5)
           (Namespace (Some handle_comment_f) (Some "E"))
           ("seen again" ++ nl ++ "details") w) in
  Hydra.notes_of (account_notes after) "acct"
  = [Sample.old_summary; Note 2 "cluster E: seen again" "details" false].
Proof. vm_compute. reflexivity. Qed.

(** ** The top-level handler *)

Lemma deliver_app (events more : list (env * payload)) (w : world) :
  deliver (events ++ more) w
  = match deliver events w with
    | (Ok _, w1) => deliver more w1
    | (Raise e, w1) => (Raise e, w1)
    end.
Proof.
  revert w. induction events as [|[E p] events IH]; intros w; [done|].
  rewrite <- app_comm_cons. cbn [deliver]. unfold bind.
  destruct (handle_message E p w) as [[[]|e] w1]; [apply IH|done].
Qed.

Lemma handle_message_returns (E : env) (p : payload) (w : world) :
  handle_message E p w
  = match _handle_message E p w with
    | (Ok _, w1) => (Ok tt, w1)
    | (Raise e, w1) =>
        (Ok tt,
         snd (logger DEBUG
                ("uncaught Exception in handle_message: " ++ str_exn e) w1))
    end.
Proof.
  unfold handle_message, try_except.
  by destruct (_handle_message E p w) as [[[]|e] w1].
Qed.

Lemma deliver_returns (events : list (env * payload)) (w : world) :
  fst (deliver events w) = Ok tt.
Proof.
  revert w. induction events as [|[E p] events IH]; intros w; [done|].
  cbn [deliver]. unfold bind. rewrite handle_message_returns.
  destruct (_handle_message E p w) as [[[]|e] w1]; apply IH.
Qed.

(** C7. Whatever [_handle_message] raises, [handle_message] returns
    normally: an exception is caught and logged, with the state as the
    failed run left it; so the delivery loop never ends by an exception
    and hands every event to the callback, in the state the events before
    it left. *)
Theorem handle_message_never_raises (E : env) (p : payload) (w : world)
    (events later : list (env * payload)) :
  handle_message E p w
  = match _handle_message E p w with
    | (Ok _, w1) => (Ok tt, w1)
    | (Raise e, w1) =>
        (Ok tt,
         World (recent_events w1) (comment_counter w1) (mention_counter w1)
               (account_notes w1) (hydra_writes w1) (posted w1)
               (log w1 ++ [(DEBUG,
                            "uncaught Exception in handle_message: "
                            ++ str_exn e)]))
    end
  /\ fst (deliver events w) = Ok tt
  /\ deliver (events ++ (E, p) :: later) w
     = deliver later (snd (handle_message E p (snd (deliver events w)))).
Proof.
  split; [apply handle_message_returns|]. split; [apply deliver_returns|].
  rewrite deliver_app. pose proof (deliver_returns events w) as Hev.
  destruct (deliver events w) as [[[]|e] w1]; [|done].
  cbn [deliver snd]. unfold bind.
  pose proof (handle_message_returns E p w1) as Hm.
  destruct (handle_message E p w1) as [[[]|e] w2]; [done|].
  by destruct (_handle_message E p w1) as [[[]|e'] w3].
Qed.

Lemma handle_message_survives_collaborator_failure :
  let E := Sample.env_failing post_account_note (OtherException "reset") in
  let p := Payload (Some (Sample.message_data
                            ("<@UBOT> set-summary E" ++ nl ++ "title") 5)) in
  let w := Sample.world_with [] in
  fst (_handle_message E p w) = Raise (OtherException "reset")
  /\ fst (handle_message E p w) = Ok tt
  /\ posted (snd (handle_message E p w)) = [].
Proof. vm_compute. done. Qed.

(** ** Replies *)

Lemma get_summary_pure (E : env) (cluster : string) (w : world) :
  snd (get_summary E cluster w) = w.
Proof.
  unfold get_summary, get_notes, hydra_get_account_notes. run_bot.
  repeat case_match; simplify_eq; done.
Qed.

Lemma set_summary_writes_posted (E : env) (cluster subj text : string)
    (w : world) :
  posted (snd (set_summary_writes E cluster subj text w)) = posted w.
Proof. by destruct (set_summary_writes_run E cluster subj text w). Qed.

Lemma comment_writes_posted (E : env) (cluster subj text : string)
    (w : world) :
  posted (snd (comment_writes E cluster subj text w)) = posted w.
Proof. by destruct (comment_writes_run E cluster subj text w). Qed.



(** ** Parse outcomes *)








Lemma comment_adds_one_note_and_keeps_the_rest_witness :
  let E := Sample.env_at 0 in
  let d := Sample.message_data "" 5 in
  let args := Namespace (Some handle_comment_f) (Some "E") in
  let w := Sample.world_with [Sample.old_summary] in
  let after := snd (handle_comment E d args ("seen" ++ nl ++ "details") w) in
  exists before behind,
    Hydra.notes_of (account_notes w) "acct" = (before ++ behind)%list
    /\ Hydra.notes_of (account_notes after) "acct"
       = (before
          ++ [Note (Hydra.fresh_id (Hydra.notes_of (account_notes w) "acct"))
                ("cluster " ++ "E" ++ ": "
                 ++ fst (split_subject_body ("seen" ++ nl ++ "details")))
                (snd (split_subject_body ("seen" ++ nl ++ "details"))) false]
          ++ behind)%list.
Proof.
  apply (proj2 (proj2 (proj2
           (comment_adds_one_note_and_keeps_the_rest (Sample.env_at 0)
              (Sample.message_data "" 5)
              (Namespace (Some handle_comment_f) (Some "E"))
              ("seen" ++ nl ++ "details")
              (Sample.world_with [Sample.old_summary]))))
           "C1" 5%Z "E" "acct"); reflexivity.
Defined.

(** * Further properties of the code *)

(** ** Frames through the monad *)

Section Keeps.

Variable R : world -> world -> Prop.
Hypothesis R_refl : forall w, R w w.
Hypothesis R_trans : forall w1 w2 w3, R w1 w2 -> R w2 w3 -> R w1 w3.

Lemma keeps_ret {A} (a : A) : keeps R (ret a).
Proof. intros w. apply R_refl. Qed.

Lemma keeps_raise {A} (e : exn) : keeps R (@raise A e).
Proof. intros w. apply R_refl. Qed.

Lemma keeps_lift {A} (r : result A) : keeps R (lift r).
Proof. intros w. apply R_refl. Qed.

Lemma keeps_getitem {A} (key : string) (v : option A) :
  keeps R (getitem key v).
Proof. destruct v; [apply keeps_ret|apply keeps_raise]. Qed.

Lemma keeps_bind {A B} (m : M A) (k : A -> M B) :
  keeps R m -> (forall a, keeps R (k a)) -> keeps R (bind m k).
Proof.
  intros Hm Hk w. unfold bind. specialize (Hm w).
  destruct (m w) as [[a|e] w1]; [|done].
  eapply R_trans; [exact Hm|apply Hk].
Qed.

Lemma keeps_try_except {A} (m : M A) (sel : exn -> bool) (h : exn -> M A) :
  keeps R m -> (forall e, keeps R (h e)) -> keeps R (try_except m sel h).
Proof.
  intros Hm Hh w. unfold try_except. specialize (Hm w).
  destruct (m w) as [[a|e] w1]; [done|].
  destruct (sel e); [|done].
  eapply R_trans; [exact Hm|apply Hh].
Qed.

End Keeps.

Lemma same_intake_refl (w : world) : same_intake w w.
Proof. by split. Qed.

Lemma same_intake_trans (w1 w2 w3 : world) :
  same_intake w1 w2 -> same_intake w2 w3 -> same_intake w1 w3.
Proof. intros [H1 H2] [H3 H4]. split; congruence. Qed.

Lemma same_backend_refl (w : world) : same_backend w w.
Proof. by repeat split. Qed.

Lemma same_backend_trans (w1 w2 w3 : world) :
  same_backend w1 w2 -> same_backend w2 w3 -> same_backend w1 w3.
Proof. intros (H1 & H2 & H3) (H4 & H5 & H6). repeat split; congruence. Qed.

(** Splits a frame goal along the structure of the computation; what is
    left are the primitive steps. *)
Ltac keeps_structure Hrefl Htrans :=
  repeat first
    [ apply (keeps_ret _ Hrefl)
    | apply (keeps_raise _ Hrefl)
    | apply (keeps_lift _ Hrefl)
    | apply (keeps_getitem _ Hrefl)
    | apply (keeps_bind _ Htrans); [|intros ?]
    | apply (keeps_try_except _ Htrans); [|intros ?]
    | match goal with
      | |- keeps _ (match ?x with _ => _ end) => destruct x
      | |- keeps _ (if ?x then _ else _) => destruct x
      | |- keeps _ (let '(_, _) := ?x in _) => destruct x
      end ].

Section IntakeFrame.

Variable E : env.

Lemma chat_keeps_intake (c : string) (t : Z) (k : content) :
  keeps same_intake (chat_postMessage E c t k).
Proof. intros w. by split. Qed.

Lemma logger_keeps_intake (l : level) (txt : string) :
  keeps same_intake (logger l txt).
Proof. intros w. by split. Qed.

Lemma counter_keeps_intake (label : string) :
  keeps same_intake (comment_counter_inc label).
Proof. intros w. by split. Qed.

Lemma hydra_read_keeps_intake (account : string) :
  keeps same_intake (hydra_get_account_notes E account).
Proof.
  intros w. unfold hydra_get_account_notes.
  by destruct (hydra_fault E get_account_notes).
Qed.

Lemma hydra_write_keeps_intake (call : hydra_call) (wr : hydra_write) :
  keeps same_intake (hydra_write_call E call wr).
Proof.
  intros w. unfold hydra_write_call. by destruct (hydra_fault E call).
Qed.

Ltac intake_frame :=
  keeps_structure same_intake_refl same_intake_trans;
  first [ apply chat_keeps_intake | apply logger_keeps_intake
        | apply counter_keeps_intake | apply hydra_read_keeps_intake
        | apply hydra_write_keeps_intake | idtac ].

Lemma call_handler_keeps_intake (h : handler) (d : data) (args : namespace)
    (txt : string) :
  keeps same_intake (call_handler E h d args txt).
Proof.
  destruct h; cbn [call_handler];
    unfold handle_help, handle_summary, handle_set_summary, handle_detail,
      handle_comment, get_summary, get_notes, set_summary_writes,
      comment_writes, resolve_ebs_account, hydra_post_account_note,
      hydra_delete_account_note, channel_and_thread, args_cluster;
    repeat intake_frame.
Qed.

Lemma dispatch_keeps_intake (d : data) (txt : string) :
  keeps same_intake (dispatch E d txt).
Proof.
  intros w. unfold dispatch.
  destruct (split_command txt) as [user_arg_line rest].
  destruct (parse_args E _) as [args|e].
  - destruct (ns_func args) as [h|]; [|apply same_intake_refl].
    revert w. apply (keeps_bind _ same_intake_trans).
    + apply call_handler_keeps_intake.
    + intros r. repeat intake_frame.
  - destruct e; cbn [is_ValueError]; try apply same_intake_refl;
      revert w; unfold handle_parse_args_error, handle_help,
        channel_and_thread; repeat intake_frame.
Qed.

End IntakeFrame.

(** ** Intake: which messages reach the dispatcher *)

Section Intake.

Variable E : env.

Lemma handle_uuid_mention_run (txt : string) (w : world) :
  exists w1,
    handle_uuid_mention E txt w = (Ok tt, w1)
    /\ recent_events w1 = recent_events w
    /\ same_backend w w1
    /\ posted w1 = posted w
    /\ mention_counter w1
       = match uuid_re_match E txt with
         | Some uuid => inc uuid (mention_counter w)
         | None => mention_counter w
         end.
Proof.
  unfold handle_uuid_mention. destruct (uuid_re_match E txt) as [uuid|].
  - eexists. split; [reflexivity|]. by repeat split.
  - eexists. split; [reflexivity|]. by repeat split.
Qed.

Lemma handle_plain_run (d : data) (txt : string) (w : world) :
  plain_message d txt ->
  _handle_message E (Payload (Some d)) w
  = bind (handle_uuid_mention E txt)
      (fun _ =>
         if negb (startswith txt (bot_mention E)) then ret tt
         else bind (logger DEBUG "handle_message")
                (fun _ => bind (dedup_gate E (default 0%Z (ts d)))
                            (fun _ => dispatch E d txt))) w.
Proof.
  intros (Hsub & Htxt & Hne). unfold _handle_message. cbn [payload_data].
  rewrite Hsub, Htxt. apply String.eqb_neq in Hne. by rewrite Hne.
Qed.

(** What is left of a run of [handle_message] on a plain message that
    stops at the duplicate check. *)
Lemma duplicate_run (d : data) (txt : string) (w : world) :
  plain_message d txt ->
  startswith txt (bot_mention E) = true ->
  default 0%Z (ts d) ∈ recent_events w ->
  exists w1 w2,
    handle_uuid_mention E txt w = (Ok tt, w1)
    /\ logger DEBUG "handle_message" w1 = (Ok tt, w2)
    /\ _handle_message E (Payload (Some d)) w = (Raise (NameError "message"), w2).
Proof.
  intros Hplain Hstart Hseen.
  destruct (handle_uuid_mention_run txt w) as (w1 & Hm & Hrec & _).
  rewrite (handle_plain_run d txt w Hplain). unfold bind at 1. rewrite Hm.
  rewrite Hstart. cbn [negb]. eexists w1, _. split; [done|].
  split; [reflexivity|]. unfold bind. cbn [logger].
  rewrite dedup_gate_duplicate; [done|]. cbn [recent_events]. by rewrite Hrec.
Qed.

End Intake.

(** X1. A plain message that does not start with the bot's mention is
    only seen by the UUID matcher: [handle_message] returns, nothing is
    posted, the backend, the comment counter and the dedup window are
    untouched, and the mention counter is incremented for the UUID
    matched in the text, if any. *)
Theorem unaddressed_message_only_counts_mention (E : env) (d : data)
    (txt : string) (w : world) :
  plain_message d txt ->
  startswith txt (bot_mention E) = false ->
  let after := snd (handle_message E (Payload (Some d)) w) in
  fst (handle_message E (Payload (Some d)) w) = Ok tt
  /\ posted after = posted w
  /\ same_backend w after
  /\ recent_events after = recent_events w
  /\ log after = match uuid_re_match E txt with
                 | Some uuid => (log w ++ [(DEBUG, (uuid ++ " mention")%string)])%list
                 | None => log w
                 end
  /\ mention_counter after
     = match uuid_re_match E txt with
       | Some uuid => inc uuid (mention_counter w)
       | None => mention_counter w
       end.
Proof.
  intros Hplain Hstart. cbv zeta.
  rewrite handle_message_returns, (handle_plain_run E d txt w Hplain).
  unfold bind, handle_uuid_mention. rewrite Hstart. cbn [negb].
  destruct (uuid_re_match E txt) as [uuid|]; by repeat split.
Qed.

Lemma unaddressed_message_only_counts_mention_witness :
  let E := Sample.env_at 0 in
  let d := Sample.message_data "cluster E is down" 5 in
  let w := Sample.world_with [] in
  let after := snd (handle_message E (Payload (Some d)) w) in
  fst (handle_message E (Payload (Some d)) w) = Ok tt
  /\ posted after = posted w
  /\ same_backend w after
  /\ recent_events after = recent_events w
  /\ log after = match uuid_re_match E "cluster E is down" with
                 | Some uuid => (log w ++ [(DEBUG, (uuid ++ " mention")%string)])%list
                 | None => log w
                 end
  /\ mention_counter after
     = match uuid_re_match E "cluster E is down" with
       | Some uuid => inc uuid (mention_counter w)
       | None => mention_counter w
       end.
Proof.
  apply (unaddressed_message_only_counts_mention (Sample.env_at 0)
           (Sample.message_data "cluster E is down" 5) "cluster E is down"
           (Sample.world_with [])).
  - repeat split. discriminate.
  - reflexivity.
Defined.

(** X2. An event without [data], with a [subtype] (an edit, a join, a bot
    message), or without text is dropped before anything is looked at:
    the whole state, log included, is as before, so a UUID in such an
    event is not counted. *)
Theorem ignored_event_changes_nothing (E : env) (p : payload) (w : world) :
  ignored_event p -> handle_message E p w = (Ok tt, w).
Proof.
  unfold ignored_event. intros Hign.
  rewrite handle_message_returns. unfold _handle_message.
  destruct (payload_data p) as [d|]; [|done].
  destruct (subtype d) as [st|]; [done|].
  destruct Hign as [[st Hst]|[->| ->]]; done.
Qed.

Lemma ignored_event_changes_nothing_witness :
  handle_message (Sample.env_at 0)
    (Payload (Some (Data (Some "message_changed")
                      (Some "<@UBOT> summary E") (Some 5%Z) (Some "C1") None)))
    (Sample.world_with [])
  = (Ok tt, Sample.world_with []).
Proof.
  apply (ignored_event_changes_nothing (Sample.env_at 0)
           (Payload (Some (Data (Some "message_changed")
                             (Some "<@UBOT> summary E") (Some 5%Z)
                             (Some "C1") None)))
           (Sample.world_with [])).
  left. by eexists.
Defined.

Lemma logger_keeps_mentions (l : level) (txt : string) (w : world) :
  mention_counter (snd (logger l txt w)) = mention_counter w.
Proof. done. Qed.

(** X3. The mention counter counts deliveries, not commands: whatever
    happens to the event afterwards (not addressed to the bot, refused as
    a duplicate, a parse error, a handler that fails), [handle_message]
    returns and has incremented the mention counter exactly for the UUID
    matched in the text of a plain message, and for nothing else. *)
Theorem mention_counter_counts_every_delivery (E : env) (p : payload)
    (w : world) :
  fst (handle_message E p w) = Ok tt
  /\ mention_counter (snd (handle_message E p w))
     = match mention_of E p with
       | Some uuid => inc uuid (mention_counter w)
       | None => mention_counter w
       end.
Proof.
  split; [rewrite handle_message_returns; by destruct (_handle_message E p w)
                                               as [[[]|e] w1]|].
  assert (Hinner : mention_counter (snd (_handle_message E p w))
                   = match mention_of E p with
                     | Some uuid => inc uuid (mention_counter w)
                     | None => mention_counter w
                     end).
  { unfold mention_of, _handle_message.
    destruct (payload_data p) as [d|]; [|done].
    destruct (subtype d); [done|]. destruct (text d) as [txt|]; [|done].
    destruct (String.eqb txt ""); [done|].
    destruct (handle_uuid_mention_run E txt w) as (w1 & Hm & _ & _ & _ & <-).
    unfold bind at 1. rewrite Hm.
    destruct (negb (startswith txt (bot_mention E))); [done|].
    unfold bind at 1. cbn [logger].
    set (w2 := World _ _ _ _ _ _ _).
    change (mention_counter w1) with (mention_counter w2).
    unfold bind, dedup_gate.
    destruct (dedup_admit _ _ _) as [[] recent]; [|done].
    set (w3 := World _ _ _ _ _ _ _).
    change (mention_counter w2) with (mention_counter w3).
    apply (dispatch_keeps_intake E d txt w3). }
  rewrite handle_message_returns.
  by destruct (_handle_message E p w) as [[[]|e] w1].
Qed.

(** X4. A message addressed to the bot whose timestamp is already in the
    dedup window is not processed: [handle_message] returns, nothing is
    posted, the backend, the comment counter and the window are as
    before.  The duplicate branch leaves through the [NameError] of the
    undefined name [message], which the top level logs. *)
Theorem duplicate_is_not_processed (E : env) (d : data) (txt : string)
    (w : world) :
  plain_message d txt ->
  startswith txt (bot_mention E) = true ->
  default 0%Z (ts d) ∈ recent_events w ->
  let after := snd (handle_message E (Payload (Some d)) w) in
  fst (handle_message E (Payload (Some d)) w) = Ok tt
  /\ fst (_handle_message E (Payload (Some d)) w) = Raise (NameError "message")
  /\ posted after = posted w
  /\ same_backend w after
  /\ recent_events after = recent_events w
  /\ last (log after)
     = Some (DEBUG,
             "uncaught Exception in handle_message: name 'message' is not defined").
Proof.
  intros Hplain Hstart Hseen. cbv zeta.
  destruct (duplicate_run E d txt w Hplain Hstart Hseen)
    as (w1 & w2 & Hm & Hlog & Hrun).
  destruct (handle_uuid_mention_run E txt w)
    as (w1' & Hm' & Hrec & Hback & Hposted & _).
  rewrite Hm in Hm'. injection Hm' as <-.
  rewrite handle_message_returns, Hrun.
  injection Hlog as <-. cbn [fst snd logger posted recent_events log].
  repeat split; try done; try apply Hback.
  by rewrite last_snoc.
Qed.

Lemma duplicate_is_not_processed_witness :
  let E := Sample.env_at 0 in
  let d := Sample.message_data "<@UBOT> summary E" 5 in
  let after := snd (handle_message E (Payload (Some d)) seen_once) in
  fst (handle_message E (Payload (Some d)) seen_once) = Ok tt
  /\ fst (_handle_message E (Payload (Some d)) seen_once)
     = Raise (NameError "message")
  /\ posted after = posted seen_once
  /\ same_backend seen_once after
  /\ recent_events after = recent_events seen_once
  /\ last (log after)
     = Some (DEBUG,
             "uncaught Exception in handle_message: name 'message' is not defined").
Proof.
  apply (duplicate_is_not_processed (Sample.env_at 0)
           (Sample.message_data "<@UBOT> summary E" 5) "<@UBOT> summary E"
           seen_once).
  - repeat split. discriminate.
  - reflexivity.
  - change (5%Z ∈ ({[5%Z]} : gset Z)). by apply elem_of_singleton.
Defined.

(** The window after a plain addressed message got through the gate. *)
Lemma admitted_run (E : env) (d : data) (txt : string) (w : world) :
  plain_message d txt ->
  startswith txt (bot_mention E) = true ->
  (default 0%Z (ts d) ∉ recent_events w) ->
  recent_events (snd (handle_message E (Payload (Some d)) w))
  = snd (dedup_admit (time_time E) (default 0%Z (ts d)) (recent_events w)).
Proof.
  intros Hplain Hstart Hnew.
  assert (Hinner : recent_events (snd (_handle_message E (Payload (Some d)) w))
                   = snd (dedup_admit (time_time E) (default 0%Z (ts d))
                            (recent_events w))).
  { rewrite (handle_plain_run E d txt w Hplain).
    destruct (handle_uuid_mention_run E txt w) as (w1 & Hm & Hrec & _).
    unfold bind at 1. rewrite Hm, Hstart. cbn [negb].
    unfold bind at 1. cbn [logger].
    set (w2 := World _ _ _ _ _ _ _).
    assert (Hnew2 : default 0%Z (ts d) ∉ recent_events w2)
      by (cbn [w2 recent_events]; by rewrite Hrec).
    unfold bind, dedup_gate. rewrite (admit_new _ _ _ Hnew2).
    rewrite (admit_new _ _ _ Hnew). cbn [snd].
    set (w3 := World _ _ _ _ _ _ _).
    transitivity (recent_events w3);
      [apply (dispatch_keeps_intake E d txt w3)|].
    cbn [w3 w2 recent_events]. by rewrite Hrec. }
  rewrite handle_message_returns.
  by destruct (_handle_message E (Payload (Some d)) w) as [[[]|e] w1].
Qed.

(** X5. Redelivery is harmless within the hour.  When a plain message
    addressed to the bot, with a timestamp less than an hour old that is
    not in the window, has been handled (whatever its handler did), the
    same event delivered again to the same bot posts nothing further and
    leaves the backend, the comment counter and the window as the first
    delivery left them. *)
Theorem redelivered_event_is_ignored (E1 E2 : env) (d : data) (txt : string)
    (w : world) :
  plain_message d txt ->
  startswith txt (bot_mention E1) = true ->
  BOT_ID E2 = BOT_ID E1 ->
  (default 0%Z (ts d) ∉ recent_events w) ->
  (default 0%Z (ts d) > time_time E1 - 3600 * second)%Z ->
  let first := snd (handle_message E1 (Payload (Some d)) w) in
  let again := snd (handle_message E2 (Payload (Some d)) first) in
  fst (handle_message E2 (Payload (Some d)) first) = Ok tt
  /\ posted again = posted first
  /\ same_backend first again
  /\ recent_events again = recent_events first.
Proof.
  intros Hplain Hstart Hbot Hnew Hfresh. cbv zeta.
  pose proof (admitted_run E1 d txt w Hplain Hstart Hnew) as Hwin.
  rewrite (admit_new _ _ _ Hnew) in Hwin. cbn [snd] in Hwin.
  assert (Hseen : default 0%Z (ts d)
                  ∈ recent_events (snd (handle_message E1 (Payload (Some d)) w))).
  { rewrite Hwin. apply elem_of_filter. split.
    - unfold second in *. lia.
    - apply elem_of_union. left. by apply elem_of_singleton. }
  assert (Hstart2 : startswith txt (bot_mention E2) = true).
  { unfold bot_mention. by rewrite Hbot. }
  destruct (duplicate_run E2 d txt _ Hplain Hstart2 Hseen)
    as (w1 & w2 & Hm & Hlog & Hrun).
  destruct (handle_uuid_mention_run E2 txt
              (snd (handle_message E1 (Payload (Some d)) w)))
    as (w1' & Hm' & Hrec & Hback & Hposted & _).
  rewrite Hm in Hm'. injection Hm' as <-.
  rewrite handle_message_returns, Hrun. injection Hlog as <-.
  cbn [fst snd logger posted recent_events].
  repeat split; try done; apply Hback.
Qed.

Lemma redelivered_event_is_ignored_witness :
  let E := Sample.env_at 10 in
  let d := Sample.message_data "<@UBOT> help" 5 in
  let first := snd (handle_message E (Payload (Some d)) (Sample.world_with [])) in
  let again := snd (handle_message E (Payload (Some d)) first) in
  fst (handle_message E (Payload (Some d)) first) = Ok tt
  /\ posted again = posted first
  /\ same_backend first again
  /\ recent_events again = recent_events first.
Proof.
  apply (redelivered_event_is_ignored (Sample.env_at 10) (Sample.env_at 10)
           (Sample.message_data "<@UBOT> help" 5) "<@UBOT> help"
           (Sample.world_with [])).
  - repeat split. discriminate.
  - reflexivity.
  - reflexivity.
  - apply not_elem_of_empty.
  - reflexivity.
Defined.

(** X6. A timestamp that is an hour old or older when its message is
    handled is never remembered: it is added to the window and pruned by
    the same call, so the window does not protect against the redelivery
    of such an event.  A message without [ts] counts as timestamp 0. *)
Theorem stale_event_is_not_remembered (E : env) (d : data) (txt : string)
    (w : world) :
  plain_message d txt ->
  startswith txt (bot_mention E) = true ->
  (default 0%Z (ts d) ∉ recent_events w) ->
  (default 0%Z (ts d) <= time_time E - 3600 * second)%Z ->
  default 0%Z (ts d) ∉ recent_events (snd (handle_message E (Payload (Some d)) w)).
Proof.
  intros Hplain Hstart Hnew Hstale.
  rewrite (admitted_run E d txt w Hplain Hstart Hnew).
  rewrite (admit_new _ _ _ Hnew). cbn [snd].
  rewrite elem_of_filter. unfold second in *. lia.
Qed.

Lemma stale_event_is_not_remembered_witness :
  (0%Z ∉ recent_events
          (snd (handle_message (Sample.env_at (3600 * second))
                  (Payload (Some (Data None (Some "<@UBOT> help") None
                                    (Some "C1") None)))
                  (Sample.world_with [])))).
Proof.
  apply (stale_event_is_not_remembered (Sample.env_at (3600 * second))
           (Data None (Some "<@UBOT> help") None (Some "C1") None)
           "<@UBOT> help" (Sample.world_with [])).
  - repeat split. discriminate.
  - reflexivity.
  - apply not_elem_of_empty.
  - reflexivity.
Defined.

(** ** Replies: where they go and how many there are *)

Section Replies.

Variable E : env.

Lemma finish_posts (c : string) (t : Z) (cluster confirmation : string)
    (run : result unit * world) :
  match finish E c t cluster confirmation run with
  | (Ok _, w') => exists k, posted w' = (posted (snd run) ++ [Message c t k])%list
  | (Raise _, w') => posted w' = posted (snd run)
  end.
Proof.
  destruct run as [[[]|e] w1]; simpl; [eauto|].
  destruct (is_ValueError e); simpl; eauto.
Qed.

(** A handler that cannot find the channel or the timestamp of its event
    raises the [KeyError] before it does anything; the default of
    [.get('thread_ts', ...)] is looked up even when [thread_ts] is
    there. *)
Lemma call_handler_malformed (h : handler) (d : data) (args : namespace)
    (txt : string) (w : world) :
  match channel d, ts d with
  | None, _ => call_handler E h d args txt w = (Raise (KeyError "channel"), w)
  | Some _, None => call_handler E h d args txt w = (Raise (KeyError "ts"), w)
  | Some _, Some _ => True
  end.
Proof.
  destruct (channel d) as [c|] eqn:Hc, (ts d) as [t|] eqn:Ht; [done|..];
    destruct h; cbn [call_handler];
    unfold handle_help, handle_summary, handle_set_summary, handle_detail,
      handle_comment, channel_and_thread, bind, getitem, ret, raise;
    by rewrite Hc, ?Ht.
Qed.

Lemma call_handler_posts (h : handler) (d : data) (args : namespace)
    (txt : string) (w : world) (c : string) (t : Z) :
  channel d = Some c -> ts d = Some t ->
  match call_handler E h d args txt w with
  | (Ok _, w') =>
      exists k,
        posted w' = (posted w ++ [Message c (default t (thread_ts d)) k])%list
  | (Raise _, w') => posted w' = posted w
  end.
Proof.
  intros Hc Ht. destruct h; cbn [call_handler].
  - unfold handle_help. run_bot. rewrite Hc, Ht. simpl. eauto.
  - unfold handle_summary. run_bot. rewrite Hc, Ht.
    destruct (ns_cluster args) as [cluster|]; [|done].
    pose proof (get_summary_pure E cluster w) as Hpure.
    destruct (get_summary E cluster w) as [[got|e] w1]; simpl in Hpure; subst w1.
    + simpl. eauto.
    + destruct (is_ValueError e); simpl; eauto.
  - destruct (ns_cluster args) as [cluster|] eqn:Hcl.
    + rewrite (handle_set_summary_run E d args txt w c t cluster) by done.
      destruct (split_subject_body txt) as [subj rest].
      pose proof (finish_posts c (default t (thread_ts d)) cluster
                    ("set " ++ cluster ++ " summary to:" ++ nl ++ subj ++ nl
                     ++ strip (strip rest ++ footer))
                    (set_summary_writes E cluster subj
                       (strip (strip rest ++ footer)) w)) as Hfin.
      by rewrite set_summary_writes_posted in Hfin.
    + destruct (handle_set_summary_malformed E d args txt w) as [e ->];
        [tauto|done].
  - unfold handle_detail. run_bot. rewrite Hc, Ht.
    destruct (ns_cluster args) as [cluster|]; [|done].
    pose proof (get_summary_pure E cluster w) as Hpure.
    destruct (get_summary E cluster w) as [[[[info summary] notes]|e] w1];
      simpl in Hpure; subst w1.
    + simpl. eauto.
    + destruct (is_ValueError e); simpl; eauto.
  - destruct (ns_cluster args) as [cluster|] eqn:Hcl.
    + rewrite (handle_comment_run E d args txt w c t cluster) by done.
      destruct (split_subject_body txt) as [subj rest].
      pose proof (finish_posts c (default t (thread_ts d)) cluster
                    ("added comment on " ++ cluster ++ ":" ++ nl ++ subj ++ nl
                     ++ rest)
                    (comment_writes E cluster subj rest w)) as Hfin.
      by rewrite comment_writes_posted in Hfin.
    + destruct (handle_comment_malformed E d args txt w) as [e ->];
        [tauto|done].
Qed.

Lemma call_handler_at_most_one_reply (h : handler) (d : data)
    (args : namespace) (txt : string) (w : world) :
  at_most_one_reply d w (snd (call_handler E h d args txt w)).
Proof.
  pose proof (call_handler_malformed h d args txt w) as Hbad.
  destruct (channel d) as [c|] eqn:Hc; [|rewrite Hbad; by left].
  destruct (ts d) as [t|] eqn:Ht; [|rewrite Hbad; by left].
  pose proof (call_handler_posts h d args txt w c t Hc Ht) as Hposts.
  destruct (call_handler E h d args txt w) as [[r|e] w']; cbn [snd].
  - destruct Hposts as [k Hk]. right. exists c, t, k. by rewrite Hc, Ht.
  - by left.
Qed.

Lemma dispatch_at_most_one_reply (d : data) (txt : string) (w : world) :
  at_most_one_reply d w (snd (dispatch E d txt w)).
Proof.
  unfold dispatch. destruct (split_command txt) as [user_arg_line rest].
  destruct (parse_args E _) as [args|e].
  - destruct (ns_func args) as [h|]; [|by left].
    pose proof (call_handler_at_most_one_reply h d args rest w) as Hone.
    unfold bind. destruct (call_handler E h d args rest w) as [[r|e] w'];
      [|done].
    destruct r as [[[]]|]; exact Hone.
  - assert (Hhelp : forall sp,
              at_most_one_reply d w
                (snd (bind (handle_help E d sp) (fun _ => ret tt) w))).
    { intros sp. unfold handle_help. run_bot.
      destruct (channel d) as [c|] eqn:Hc; [|by left].
      destruct (ts d) as [t|] eqn:Ht; [|by left].
      right. exists c, t. eexists. by rewrite Hc, Ht. }
    assert (Herr : at_most_one_reply d w
                     (snd (bind (handle_parse_args_error E d e)
                             (fun _ => ret tt) w))).
    { unfold handle_parse_args_error. run_bot.
      destruct (channel d) as [c|] eqn:Hc; [|by left].
      destruct (ts d) as [t|] eqn:Ht; [|by left].
      destruct e as [| st [message|] | | | | |]; try by left.
      destruct (String.eqb message ""); [by left|].
      right. exists c, t. eexists. by rewrite Hc, Ht. }
    destruct e; cbn [is_ValueError]; try exact Herr; try apply Hhelp.
    all: by left.
Qed.

End Replies.

(** X7. However an event is handled, at most one message is posted for
    it, and that message goes to the channel of the event and to its
    thread, or to the message's own timestamp when it is not in a
    thread. *)
Theorem every_event_gets_at_most_one_reply_in_its_thread (E : env)
    (p : payload) (w : world) :
  posted (snd (handle_message E p w)) = posted w
  \/ exists d, payload_data p = Some d
               /\ at_most_one_reply d w (snd (handle_message E p w)).
Proof.
  assert (Hinner : posted (snd (_handle_message E p w)) = posted w
                   \/ exists d, payload_data p = Some d
                        /\ at_most_one_reply d w (snd (_handle_message E p w))).
  { unfold _handle_message. destruct (payload_data p) as [d|]; [|by left].
    right. exists d. split; [done|].
    destruct (subtype d); [by left|]. destruct (text d) as [txt|]; [|by left].
    destruct (String.eqb txt ""); [by left|].
    destruct (handle_uuid_mention_run E txt w) as (w1 & Hm & _ & _ & Hp1 & _).
    unfold bind at 1. rewrite Hm.
    destruct (negb (startswith txt (bot_mention E))); [by left|].
    unfold bind at 1. cbn [logger]. set (w2 := World _ _ _ _ _ _ _).
    unfold bind, dedup_gate.
    destruct (dedup_admit _ _ _) as [[] recent]; [|by left].
    set (w3 := World _ _ _ _ _ _ _).
    pose proof (dispatch_at_most_one_reply E d txt w3) as Hone.
    unfold at_most_one_reply in *. cbn [w3 w2 posted] in Hone.
    by rewrite Hp1 in Hone. }
  rewrite handle_message_returns.
  destruct (_handle_message E p w) as [[[]|e] w1]; exact Hinner.
Qed.

(** X8. Every handler reads the channel and the timestamp of its event
    first.  Without [channel] it raises [KeyError('channel')], and
    without [ts] it raises [KeyError('ts')] even when the event carries
    [thread_ts], because the default of the lookup is evaluated anyway;
    in both cases nothing has been done. *)
Theorem handler_needs_channel_and_ts (E : env) (h : handler) (d : data)
    (args : namespace) (txt : string) (w : world) :
  channel d = None \/ ts d = None ->
  call_handler E h d args txt w
  = (Raise (KeyError match channel d with
                     | Some _ => "ts"
                     | None => "channel"
                     end), w).
Proof.
  intros Hmiss. pose proof (call_handler_malformed E h d args txt w) as Hbad.
  destruct (channel d) as [c|]; [|done].
  destruct (ts d) as [t|]; [|done]. by destruct Hmiss.
Qed.

Lemma handler_needs_channel_and_ts_witness :
  call_handler (Sample.env_at 0) handle_help_f
    (Data None (Some "<@UBOT> help") None (Some "C1") (Some 7%Z))
    (Namespace (Some handle_help_f) None) "" (Sample.world_with [])
  = (Raise (KeyError "ts"), Sample.world_with []).
Proof.
  apply (handler_needs_channel_and_ts (Sample.env_at 0) handle_help_f
           (Data None (Some "<@UBOT> help") None (Some "C1") (Some 7%Z))
           (Namespace (Some handle_help_f) None) "" (Sample.world_with [])).
  by right.
Defined.

(** ** Commands that only read *)

Section BackendFrame.

Variable E : env.

Lemma chat_keeps_backend (c : string) (t : Z) (k : content) :
  keeps same_backend (chat_postMessage E c t k).
Proof. intros w. by repeat split. Qed.

Lemma logger_keeps_backend (l : level) (txt : string) :
  keeps same_backend (logger l txt).
Proof. intros w. by repeat split. Qed.

Lemma hydra_read_keeps_backend (account : string) :
  keeps same_backend (hydra_get_account_notes E account).
Proof.
  intros w. unfold hydra_get_account_notes.
  by destruct (hydra_fault E get_account_notes).
Qed.

Ltac backend_frame :=
  keeps_structure same_backend_refl same_backend_trans;
  first [ apply chat_keeps_backend | apply logger_keeps_backend
        | apply hydra_read_keeps_backend | idtac ].

Lemma read_only_keeps_backend (h : handler) (d : data) (args : namespace)
    (txt : string) :
  read_only h = true -> keeps same_backend (call_handler E h d args txt).
Proof.
  destruct h; intros Hro; try discriminate Hro; cbn [call_handler];
    unfold handle_help, handle_summary, handle_detail, get_summary,
      get_notes, channel_and_thread, args_cluster;
    repeat backend_frame.
Qed.

Lemma parse_failure_keeps_backend (d : data) (e : exn) :
  keeps same_backend (handle_parse_args_error E d e)
  /\ forall sp, keeps same_backend (handle_help E d sp).
Proof.
  split; [|intros sp];
    unfold handle_parse_args_error, handle_help, channel_and_thread;
    repeat backend_frame.
Qed.

End BackendFrame.

(** X9. Only [set-summary] and [comment] write.  A message that fails to
    parse, asks for help, has no subcommand, or runs [help], [summary] or
    [detail] leaves the notes of every account, the writes sent to the
    backend and the comment counter as they were, whatever the
    collaborators answer. *)
Theorem only_write_commands_touch_the_backend (E : env) (d : data)
    (txt : string) (w : world) :
  match parse_args E (tail (split_ws (fst (split_command txt)))) with
  | Ok (Namespace (Some h) _) =>
      read_only h = true -> same_backend w (snd (dispatch E d txt w))
  | _ => same_backend w (snd (dispatch E d txt w))
  end.
Proof.
  unfold dispatch. destruct (split_command txt) as [user_arg_line rest].
  cbn [fst].
  destruct (parse_args E _) as [[[h|] cluster]|e]; cbn [ns_func].
  - intros Hro. revert w. apply (keeps_bind _ same_backend_trans).
    + by apply read_only_keeps_backend.
    + intros [[[]]|];
        [apply logger_keeps_backend|apply logger_keeps_backend
        |apply (keeps_ret _ same_backend_refl)].
  - apply same_backend_refl.
  - destruct (parse_failure_keeps_backend E d e) as [Herr Hhelp].
    destruct e; cbn [is_ValueError]; try apply same_backend_refl;
      revert w; apply (keeps_bind _ same_backend_trans);
      first [ apply Herr | apply Hhelp
            | intros ?; apply (keeps_ret _ same_backend_refl) ].
Qed.

(** ** Failures of the lookup *)

Section LookupFailure.

Variable E : env.

Lemma writes_when_lookup_raises (cluster subj txt : string) (e : exn)
    (w : world) :
  lookup_raises E cluster e ->
  set_summary_writes E cluster subj txt w = (Raise e, w)
  /\ comment_writes E cluster subj txt w = (Raise e, w).
Proof.
  intros Hres. unfold set_summary_writes, comment_writes, bind.
  by rewrite resolve_ebs_account_pure, Hres.
Qed.

Lemma get_summary_when_lookup_raises (cluster : string) (e : exn) (w : world) :
  lookup_raises E cluster e -> get_summary E cluster w = (Raise e, w).
Proof.
  intros Hres. specialize (Hres ["ebs_account"; "managed"; "support"]).
  unfold resolved in Hres. unfold get_summary, bind, lift.
  destruct (telemetry_subscription E cluster _) as [sub|e']; [|congruence].
  by rewrite Hres.
Qed.

Lemma call_handler_when_lookup_raises (h : handler) (d : data)
    (args : namespace) (txt : string) (w : world) (c : string) (t : Z)
    (cluster : string) (e : exn) :
  channel d = Some c -> ts d = Some t -> ns_cluster args = Some cluster ->
  looks_up h = true ->
  lookup_raises E cluster e ->
  call_handler E h d args txt w
  = if is_ValueError e
    then (Ok (Some (Response (chat_ok E))),
          replied c (default t (thread_ts d))
            (Text (cluster ++ " " ++ str_exn e)) w)
    else (Raise e, w).
Proof.
  intros Hc Ht Hcl Hlook Hres.
  destruct h; try discriminate Hlook; cbn [call_handler].
  - unfold handle_summary. run_bot. rewrite Hc, Ht, Hcl.
    rewrite (get_summary_when_lookup_raises cluster e w Hres).
    by destruct (is_ValueError e).
  - rewrite (handle_set_summary_run E d args txt w c t cluster) by done.
    destruct (split_subject_body txt) as [subj rest]. cbv beta iota zeta.
    destruct (writes_when_lookup_raises cluster subj
                (strip (strip rest ++ footer)) e w Hres) as [-> _].
    done.
  - unfold handle_detail. run_bot. rewrite Hc, Ht, Hcl.
    rewrite (get_summary_when_lookup_raises cluster e w Hres).
    by destruct (is_ValueError e).
  - rewrite (handle_comment_run E d args txt w c t cluster) by done.
    destruct (split_subject_body txt) as [subj rest]. cbv beta iota zeta.
    destruct (writes_when_lookup_raises cluster subj rest e w Hres)
      as [_ ->].
    done.
Qed.

End LookupFailure.

(** X10. When telemetry rejects the cluster with a [ValueError], each of
    [summary], [detail], [set-summary] and [comment] answers in the
    thread with the cluster id, a space and the text of the error,
    returns normally and changes nothing else. *)
Theorem lookup_failure_is_reported_verbatim (E : env) (h : handler)
    (d : data) (args : namespace) (txt : string) (w : world) (c : string)
    (t : Z) (cluster reason : string) :
  channel d = Some c -> ts d = Some t -> ns_cluster args = Some cluster ->
  looks_up h = true ->
  lookup_raises E cluster (ValueError reason) ->
  call_handler E h d args txt w
  = (Ok (Some (Response (chat_ok E))),
     replied c (default t (thread_ts d)) (Text (cluster ++ " " ++ reason)) w).
Proof.
  intros Hc Ht Hcl Hlook Hres.
  by rewrite (call_handler_when_lookup_raises E h d args txt w c t cluster
                (ValueError reason)).
Qed.

(** X11. A failure of telemetry that is not a [ValueError] (a broken
    connection) is not answered: the handler raises it on, having posted
    and changed nothing, and the top level logs it. *)
Theorem collaborator_failure_is_silent (E : env) (h : handler) (d : data)
    (args : namespace) (txt : string) (w : world) (c : string) (t : Z)
    (cluster : string) (e : exn) :
  channel d = Some c -> ts d = Some t -> ns_cluster args = Some cluster ->
  looks_up h = true ->
  lookup_raises E cluster e ->
  is_ValueError e = false ->
  call_handler E h d args txt w = (Raise e, w).
Proof.
  intros Hc Ht Hcl Hlook Hres Hnot.
  by rewrite (call_handler_when_lookup_raises E h d args txt w c t cluster e),
       Hnot.
Qed.

Lemma lookup_failure_is_reported_verbatim_witness :
  call_handler (env_without_telemetry (ValueError "is not a known cluster"))
    handle_detail_f (Sample.message_data "" 5)
    (Namespace (Some handle_detail_f) (Some "E")) "" (Sample.world_with [])
  = (Ok (Some (Response true)),
     replied "C1" 5%Z (Text "E is not a known cluster") (Sample.world_with [])).
Proof.
  apply (lookup_failure_is_reported_verbatim
           (env_without_telemetry (ValueError "is not a known cluster"))
           handle_detail_f (Sample.message_data "" 5)
           (Namespace (Some handle_detail_f) (Some "E")) ""
           (Sample.world_with []) "C1" 5%Z "E" "is not a known cluster");
    try reflexivity.
  intros labels. reflexivity.
Defined.

Lemma collaborator_failure_is_silent_witness :
  call_handler (env_without_telemetry (OtherException "timed out"))
    handle_comment_f (Sample.message_data "" 5)
    (Namespace (Some handle_comment_f) (Some "E")) "title"
    (Sample.world_with [])
  = (Raise (OtherException "timed out"), Sample.world_with []).
Proof.
  apply (collaborator_failure_is_silent
           (env_without_telemetry (OtherException "timed out"))
           handle_comment_f (Sample.message_data "" 5)
           (Namespace (Some handle_comment_f) (Some "E")) "title"
           (Sample.world_with []) "C1" 5%Z "E" (OtherException "timed out"));
    try reflexivity.
  intros labels. reflexivity.
Defined.

(** ** More on replacing the summary *)

Lemma new_note_is_summary (cluster subj txt : string) (id : nat) :
  is_summary cluster (Note id (subject_prefix cluster ++ subj) txt false) = true.
Proof. unfold is_summary. simpl. apply startswith_subject_prefix. Qed.

(** X12. When the backend accepts the new summary note and then rejects
    the deletion of the old one with a [ValueError], [handle_set_summary]
    answers with the error, does not count the operation, and leaves the
    account with both notes: one summary note more than before. *)
Theorem rejected_delete_leaves_both_summaries (E : env) (d : data)
    (args : namespace) (w : world) (c : string) (t : Z)
    (cluster account subj txt reason : string) (old : note) :
  channel d = Some c -> ts d = Some t -> ns_cluster args = Some cluster ->
  resolved E cluster ["ebs_account"] = Ok account ->
  hydra_fault E get_account_notes = None ->
  hydra_fault E post_account_note = None ->
  hydra_fault E delete_account_note = Some (ValueError reason) ->
  ~ In newline (list_ascii_of_string subj) ->
  fst (get_notes_of cluster (Hydra.notes_of (account_notes w) account))
  = Some old ->
  let notes := Hydra.notes_of (account_notes w) account in
  let new := Note (Hydra.fresh_id notes) (subject_prefix cluster ++ subj)
                  (strip (strip txt ++ footer)) false in
  let after := snd (handle_set_summary E d args (subj ++ nl ++ txt) w) in
  let notes_after := Hydra.notes_of (account_notes after) account in
  fst (handle_set_summary E d args (subj ++ nl ++ txt) w)
  = Ok (Some (Response (chat_ok E)))
  /\ posted after
     = (posted w ++ [Message c (default t (thread_ts d))
                       (Text (cluster ++ " " ++ reason))])%list
  /\ comment_counter after = comment_counter w
  /\ In old notes_after /\ In new notes_after
  /\ length (List.filter (is_summary cluster) notes_after)
     = S (length (List.filter (is_summary cluster) notes)).
Proof.
  intros Hc Ht Hcl Hres Hget Hpost Hdel Hline Hold. cbv zeta.
  rewrite (handle_set_summary_run E d args _ w c t cluster) by done.
  rewrite split_subject_body_line by done. cbv beta iota zeta.
  assert (Hsd : summary_delete cluster account w
                = [DeleteNote account (note_id old)]).
  { unfold summary_delete. by rewrite Hold. }
  destruct (set_summary_writes_run E cluster subj
              (strip (strip txt ++ footer)) w)
    as [e [He|[He|He]] | account' e Hres' _ _ _ He
        | account' Hres' _ _ [Hnil|Hok]];
    try congruence.
  rewrite Hres in Hres'. injection Hres' as <-.
  rewrite Hdel in He. injection He as <-.
  cbn [finish is_ValueError fst snd str_exn replied after_writes posted
       comment_counter account_notes].
  unfold replay, summary_post. cbn [fold_left Hydra.apply_write].
  rewrite notes_of_insert.
  apply found_summary_in in Hold as [Hin _].
  repeat split; try done.
  - by apply post_keeps.
  - apply post_adds.
  - pose proof (filter_take_drop (is_summary cluster)
                  (hydra_slot E (Hydra.notes_of (account_notes w) account))
                  (Hydra.notes_of (account_notes w) account)) as Hsplit.
    apply (f_equal length) in Hsplit. rewrite length_app in Hsplit.
    rewrite filter_post, !length_app. cbn [List.filter].
    rewrite new_note_is_summary. cbn [length]. lia.
Qed.

Lemma rejected_delete_leaves_both_summaries_witness :
  let E := Sample.env_failing delete_account_note (ValueError "rejected") in
  let d := Sample.message_data "" 5 in
  let w := Sample.world_with [Sample.comment_on_E; Sample.old_summary] in
  let notes := Hydra.notes_of (account_notes w) "acct" in
  let new := Note (Hydra.fresh_id notes) (subject_prefix "E" ++ "new")
                  (strip (strip "text" ++ footer)) false in
  let after := snd (handle_set_summary E d set_summary_args
                      ("new" ++ nl ++ "text") w) in
  let notes_after := Hydra.notes_of (account_notes after) "acct" in
  fst (handle_set_summary E d set_summary_args ("new" ++ nl ++ "text") w)
  = Ok (Some (Response (chat_ok E)))
  /\ posted after
     = (posted w ++ [Message "C1" (default 5%Z (thread_ts d))
                       (Text ("E" ++ " " ++ "rejected"))])%list
  /\ comment_counter after = comment_counter w
  /\ In Sample.old_summary notes_after /\ In new notes_after
  /\ length (List.filter (is_summary "E") notes_after)
     = S (length (List.filter (is_summary "E") notes)).
Proof.
  apply (rejected_delete_leaves_both_summaries
           (Sample.env_failing delete_account_note (ValueError "rejected"))
           (Sample.message_data "" 5) set_summary_args
           (Sample.world_with [Sample.comment_on_E; Sample.old_summary])
           "C1" 5%Z "E" "acct" "new" "text" "rejected" Sample.old_summary);
    try reflexivity.
  intros H. repeat destruct H as [H|H]; try discriminate H. exact H.
Defined.

Lemma same_id_same_note (notes : list note) (n m : note) :
  NoDup (map note_id notes) -> In n notes -> In m notes ->
  note_id n = note_id m -> n = m.
Proof.
  induction notes as [|x notes IH]; [done|].
  rewrite fmap_cons, NoDup_cons. intros [Hx Hnd] [->|Hn] [->|Hm] Hid.
  - done.
  - exfalso. apply Hx. rewrite Hid. apply list_elem_of_fmap.
    exists m. split; [done|]. by apply list_elem_of_In.
  - exfalso. apply Hx. rewrite <- Hid. apply list_elem_of_fmap.
    exists n. split; [done|]. by apply list_elem_of_In.
  - by apply IH.
Qed.

Lemma filter_all (P : note -> bool) (notes : list note) :
  (forall n, In n notes -> P n = true) -> List.filter P notes = notes.
Proof.
  induction notes as [|x notes IH]; intros Hall; simpl; [done|].
  rewrite (Hall x) by (by left). f_equal. apply IH. intros n Hn.
  apply Hall. by right.
Qed.

(** X13. A completed [handle_set_summary] touches no other note.  When
    the notes of the account have distinct ids, the notes that are not
    summary notes of the cluster are the same, in the same order, before
    and after; the notes of every other account are unchanged. *)
Theorem set_summary_keeps_other_notes (E : env) (d : data)
    (args : namespace) (txt : string) (w : world) (c : string) (t : Z)
    (cluster account : string) :
  channel d = Some c -> ts d = Some t -> ns_cluster args = Some cluster ->
  resolved E cluster ["ebs_account"] = Ok account ->
  (forall call, hydra_fault E call = None) ->
  NoDup (map note_id (Hydra.notes_of (account_notes w) account)) ->
  let after := snd (handle_set_summary E d args txt w) in
  List.filter (fun n => negb (is_summary cluster n))
    (Hydra.notes_of (account_notes after) account)
  = List.filter (fun n => negb (is_summary cluster n))
      (Hydra.notes_of (account_notes w) account)
  /\ forall other, other <> account ->
       Hydra.notes_of (account_notes after) other
       = Hydra.notes_of (account_notes w) other.
Proof.
  intros Hc Ht Hcl Hres Hfault Hnd. cbv zeta.
  rewrite (handle_set_summary_run E d args txt w c t cluster) by done.
  destruct (split_subject_body txt) as [subj rest]. cbv beta iota zeta.
  rewrite (set_summary_writes_ok E cluster subj _ account w) by done.
  cbn [finish snd replied counted after_writes account_notes]. split.
  - rewrite replay_replaced. unfold replaced.
    set (notes := Hydra.notes_of (account_notes w) account) in *.
    set (others := fun n => negb (is_summary cluster n)).
    assert (Hposted : List.filter others
                        (Hydra.post (hydra_slot E)
                           (subject_prefix cluster ++ subj)
                           (strip (strip rest ++ footer)) notes)
                      = List.filter others notes).
    { rewrite filter_post. cbn [List.filter]. unfold others at 2.
      rewrite new_note_is_summary. cbn [negb app].
      apply filter_take_drop. }
    destruct (fst (get_notes_of cluster notes)) as [old|] eqn:Hold;
      [|exact Hposted].
    unfold Hydra.delete. rewrite filter_filter_comm, Hposted.
    apply filter_all. intros n Hn.
    apply List.filter_In in Hn as [Hn Hother].
    apply found_summary_in in Hold as [Hin Hsum].
    apply negb_true_iff, Nat.eqb_neq. intros Hid.
    assert (n = old) as -> by (by apply (same_id_same_note notes)).
    unfold others in Hother. by rewrite Hsum in Hother.
  - intros other Hne. unfold replay, summary_post, summary_delete.
    destruct (fst (get_notes_of cluster _));
      cbn [fold_left Hydra.apply_write];
      by rewrite !notes_of_insert_ne.
Qed.

Lemma set_summary_keeps_other_notes_witness :
  let E := Sample.env_at 0 in
  let w := Sample.world_with [Sample.comment_on_E; Sample.old_summary] in
  let after := snd (handle_set_summary E (Sample.message_data "" 5)
                      set_summary_args "new" w) in
  List.filter (fun n => negb (is_summary "E" n))
    (Hydra.notes_of (account_notes after) "acct")
  = List.filter (fun n => negb (is_summary "E" n))
      (Hydra.notes_of (account_notes w) "acct")
  /\ forall other, other <> "acct" ->
       Hydra.notes_of (account_notes after) other
       = Hydra.notes_of (account_notes w) other.
Proof.
  apply (set_summary_keeps_other_notes (Sample.env_at 0)
           (Sample.message_data "" 5) set_summary_args "new"
           (Sample.world_with [Sample.comment_on_E; Sample.old_summary])
           "C1" 5%Z "E" "acct"); try reflexivity.
  apply (bool_decide_unpack _). reflexivity.
Defined.

(** ** The scan, completely *)

Lemma visited_all (cluster : string) (notes : list note) :
  List.find (is_summary cluster) notes = None ->
  visited cluster notes = notes.
Proof.
  induction notes as [|n notes IH]; simpl; [done|].
  destruct (is_summary cluster n); [done|]. intros Hnone. by rewrite IH.
Qed.

Lemma visited_before (cluster : string) (before rest : list note)
    (first : note) :
  Forall (fun n => is_summary cluster n = false) before ->
  is_summary cluster first = true ->
  visited cluster (before ++ first :: rest) = before.
Proof.
  induction 1 as [|n before Hn _ IH]; intros Hfirst; simpl.
  - by rewrite Hfirst.
  - rewrite Hn. by rewrite IH.
Qed.

(** X14. [get_notes] in full.  The summary is the first non-retired note
    with the reserved prefix, if there is one.  The related notes are, in
    the backend's order, the non-retired notes that mention the cluster
    without the reserved prefix and are listed before that summary note:
    all of them when there is no summary note, and none of those listed
    after it otherwise. *)
Theorem get_notes_scan (cluster : string) (notes : list note) :
  fst (get_notes_of cluster notes) = List.find (is_summary cluster) notes
  /\ match List.find (is_summary cluster) notes with
     | None =>
         snd (get_notes_of cluster notes)
         = List.filter (is_related cluster) notes
     | Some summary =>
         exists before rest,
           notes = (before ++ summary :: rest)%list
           /\ Forall (fun n => is_summary cluster n = false) before
           /\ snd (get_notes_of cluster notes)
              = List.filter (is_related cluster) before
     end.
Proof.
  split; [apply scan_notes_summary|].
  rewrite get_notes_related_before_summary.
  destruct (List.find (is_summary cluster) notes) as [summary|] eqn:Hfind.
  - induction notes as [|n notes IH]; [done|].
    simpl in Hfind. destruct (is_summary cluster n) eqn:Hn.
    + injection Hfind as <-. exists [], notes.
      split; [done|]. split; [constructor|]. simpl. by rewrite Hn.
    + pose proof (List.find_some _ _ Hfind) as [_ Hsum].
      destruct (IH Hfind) as (before & rest & -> & Hbefore & Hrel).
      exists (n :: before), rest. split; [done|].
      split; [by constructor|].
      rewrite app_comm_cons, visited_before; [done|by constructor|done].
  - by rewrite visited_all.
Qed.

(** ** Subject, body and footer *)

Lemma lstrip_head (s : string) (c : ascii) (r : string) :
  lstrip s = String c r -> is_space c = false.
Proof.
  induction s as [|a s IH]; simpl; [done|].
  destruct (is_space a) eqn:Ha; [done|]. by intros [= <- _].
Qed.

Lemma rstrip_head (s : string) (c : ascii) (r : string) :
  rstrip s = String c r -> exists r', s = String c r'.
Proof.
  destruct s as [|a s]; simpl; [done|].
  destruct (rstrip s); [destruct (is_space a); [done|]|];
    intros [= <- _]; eauto.
Qed.

Lemma strip_head (s : string) (c : ascii) (r : string) :
  strip s = String c r -> is_space c = false.
Proof.
  unfold strip. intros Hs. apply rstrip_head in Hs as [r' Hs].
  by apply lstrip_head in Hs.
Qed.

Lemma append_assoc (s1 s2 s3 : string) :
  (s1 ++ s2) ++ s3 = s1 ++ s2 ++ s3.
Proof.
  induction s1 as [|c s1 IH]; [done|]. by rewrite !append_cons, IH.
Qed.

(** X15. The body [handle_set_summary] stores and confirms.  White space
    around the body is dropped; a body that is empty or all white space is
    replaced by the attribution; any other body is followed by an empty
    line and the attribution.  The stored body therefore always ends with
    the attribution and is never empty. *)
Theorem stored_summary_body (txt : string) :
  strip (strip txt ++ footer)
  = (if String.eqb (strip txt) "" then attribution
     else strip txt ++ nl ++ nl ++ attribution)
  /\ exists before, strip (strip txt ++ footer) = before ++ attribution.
Proof.
  assert (Hbody : strip (strip txt ++ footer)
                  = if String.eqb (strip txt) "" then attribution
                    else strip txt ++ nl ++ nl ++ attribution).
  { destruct (strip txt) as [|c r] eqn:Hs; [by vm_compute|].
    cbn [String.eqb]. apply strip_head in Hs.
    unfold strip at 1. rewrite append_cons. cbn [lstrip]. rewrite Hs.
    rewrite <- append_cons. apply rstrip_append; [by vm_compute|done]. }
  split; [exact Hbody|]. rewrite Hbody.
  destruct (String.eqb (strip txt) "").
  - by exists "".
  - exists (strip txt ++ nl ++ nl). by rewrite !append_assoc.
Qed.

Lemma split_nl_spec (s : string) :
  match split_nl s with
  | (line, None) => s = line /\ ~ In newline (list_ascii_of_string s)
  | (line, Some rest) =>
      s = line ++ nl ++ rest /\ ~ In newline (list_ascii_of_string line)
  end.
Proof.
  induction s as [|c s IH]; simpl; [split; [done|tauto]|].
  destruct (Ascii.eqb c newline) eqn:Hc.
  - apply Ascii.eqb_eq in Hc as ->. split; [done|]. simpl. tauto.
  - apply Ascii.eqb_neq in Hc.
    destruct (split_nl s) as [line [rest|]]; destruct IH as [-> Hno];
      (split; [done|]); simpl; intros [?|?]; congruence.
Qed.

(** X16. How the text after the command line is cut into subject and
    body.  With a line feed in it, the text is the subject, one line
    feed and the body, and the subject is the first line.  Without one,
    the whole text is the subject and the body is empty; this is not an
    error. *)
Theorem subject_and_body_partition_the_text (txt : string) :
  let '(subj, rest) := split_subject_body txt in
  ~ In newline (list_ascii_of_string subj)
  /\ (txt = subj ++ nl ++ rest
      \/ (txt = subj /\ rest = ""
          /\ ~ In newline (list_ascii_of_string txt))).
Proof.
  unfold split_subject_body. pose proof (split_nl_spec txt) as Hspec.
  destruct (split_nl txt) as [line [rest|]].
  - destruct Hspec as [-> Hno]. split; [done|by left].
  - destruct Hspec as [<- Hno]. split; [done|]. right. by repeat split.
Qed.

(** ** Sorting the support levels *)

Lemma ascii_compare_refl (a : ascii) : Ascii.compare a a = Eq.
Proof. unfold Ascii.compare. apply N.compare_refl. Qed.

Lemma ascii_compare_lt_trans (a b c : ascii) :
  Ascii.compare a b = Lt -> Ascii.compare b c = Lt -> Ascii.compare a c = Lt.
Proof.
  unfold Ascii.compare. rewrite !N.compare_lt_iff. apply N.lt_trans.
Qed.

Lemma string_compare_refl (s : string) : String.compare s s = Eq.
Proof.
  induction s as [|a s IH]; simpl; [done|]. by rewrite ascii_compare_refl.
Qed.

Lemma string_compare_lt_trans (s1 s2 s3 : string) :
  String.compare s1 s2 = Lt -> String.compare s2 s3 = Lt ->
  String.compare s1 s3 = Lt.
Proof.
  revert s2 s3. induction s1 as [|a s1 IH]; intros [|b s2] [|c s3];
    simpl; try done.
  destruct (Ascii.compare a b) eqn:Hab; [| |done];
    destruct (Ascii.compare b c) eqn:Hbc; try done.
  - apply Ascii.compare_eq_iff in Hab as ->.
    apply Ascii.compare_eq_iff in Hbc as ->.
    rewrite ascii_compare_refl. apply IH.
  - apply Ascii.compare_eq_iff in Hab as ->. by rewrite Hbc.
  - apply Ascii.compare_eq_iff in Hbc as <-. by rewrite Hab.
  - by rewrite (ascii_compare_lt_trans a b c).
Qed.

Lemma string_compare_gt (s1 s2 : string) :
  String.compare s1 s2 = Gt -> String.compare s2 s1 = Lt.
Proof.
  rewrite String.compare_antisym. by destruct (String.compare s2 s1).
Qed.

Lemma insert_sorted_In (x y : string) (xs : list string) :
  In y (insert_sorted x xs) <-> y = x \/ In y xs.
Proof.
  induction xs as [|z xs IH]; simpl; [intuition congruence|].
  destruct (String.compare x z) eqn:Hc; simpl.
  - apply String.compare_eq_iff in Hc as ->. intuition congruence.
  - intuition congruence.
  - rewrite IH. intuition congruence.
Qed.

Lemma insert_sorted_ascending (x : string) (xs : list string) :
  ascending xs -> ascending (insert_sorted x xs).
Proof.
  unfold ascending. induction 1 as [|z xs Hsorted IH Hall]; simpl.
  - repeat constructor.
  - destruct (String.compare x z) eqn:Hc.
    + by constructor.
    + constructor; [by constructor|]. constructor; [done|].
      eapply Forall_impl; [exact Hall|]. intros y Hy.
      by apply (string_compare_lt_trans x z y).
    + constructor; [done|]. apply List.Forall_forall. intros y Hy.
      apply insert_sorted_In in Hy as [->|Hy].
      * by apply string_compare_gt.
      * by apply (proj1 (List.Forall_forall _ _) Hall).
Qed.

Lemma sorted_set_ascending (xs : list string) : ascending (sorted_set xs).
Proof.
  induction xs as [|x xs IH]; simpl; [constructor|].
  by apply insert_sorted_ascending.
Qed.

Lemma sorted_set_In (xs : list string) (y : string) :
  In y (sorted_set xs) <-> In y xs.
Proof.
  induction xs as [|x xs IH]; simpl; [done|].
  rewrite insert_sorted_In, IH. intuition congruence.
Qed.

Lemma ascending_unique (xs ys : list string) :
  ascending xs -> ascending ys ->
  (forall x, In x xs <-> In x ys) -> xs = ys.
Proof.
  unfold ascending. intros Hxs. revert ys.
  induction Hxs as [|x xs Hsx IH Hallx]; intros ys Hys Hsame.
  - destruct ys as [|y ys]; [done|]. destruct (proj2 (Hsame y)). by left.
  - destruct Hys as [|y ys Hsy Hally].
    { destruct (proj1 (Hsame x)). by left. }
    assert (Hirr : forall s, String.compare s s <> Lt).
    { intros s. by rewrite string_compare_refl. }
    assert (x = y) as ->.
    { destruct (proj1 (Hsame x)) as [->|Hx]; [by left|done|].
      destruct (proj2 (Hsame y)) as [->|Hy]; [by left|done|].
      apply (proj1 (List.Forall_forall _ _) Hally) in Hx.
      apply (proj1 (List.Forall_forall _ _) Hallx) in Hy.
      destruct (Hirr x). by apply (string_compare_lt_trans x y x). }
    f_equal. apply IH; [done|]. intros z. split; intros Hz.
    + destruct (proj1 (Hsame z)) as [->|Hz']; [by right| |done].
      apply (proj1 (List.Forall_forall _ _) Hallx) in Hz. by destruct (Hirr z).
    + destruct (proj2 (Hsame z)) as [->|Hz']; [by right| |done].
      apply (proj1 (List.Forall_forall _ _) Hally) in Hz. by destruct (Hirr z).
Qed.

Lemma sorted_set_same (xs ys : list string) :
  (forall x, In x xs <-> In x ys) -> sorted_set xs = sorted_set ys.
Proof.
  intros Hsame.
  apply ascending_unique; [apply sorted_set_ascending..|].
  intros x. by rewrite !sorted_set_In.
Qed.

Lemma support_levels_same (keep : string -> bool) (ents1 ents2 : list entitlement) :
  (forall e, In e ents1 <-> In e ents2) ->
  support_levels keep ents1 = support_levels keep ents2.
Proof.
  intros Hsame. unfold support_levels. f_equal. apply sorted_set_same.
  intros x. rewrite !List.in_map_iff.
  split; intros (e & <- & He); exists e; (split; [done|]);
    apply List.filter_In in He as [He Hk]; apply List.filter_In;
    (split; [by apply Hsame|done]).
Qed.

(** X17. The entitlements line depends only on which entitlements the
    account has: listing them in another order, or listing one several
    times, gives the same text. *)
Theorem entitlements_summary_ignores_order_and_duplicates
    (ents1 ents2 : list entitlement) :
  (forall e, In e ents1 <-> In e ents2) ->
  entitlements_summary ents1 = entitlements_summary ents2.
Proof.
  intros Hsame. unfold entitlements_summary.
  destruct ents1 as [|e1 ents1], ents2 as [|e2 ents2]; [done| | |].
  - destruct (proj2 (Hsame e2)). by left.
  - destruct (proj1 (Hsame e1)). by left.
  - by rewrite !(support_levels_same _ (e1 :: ents1) (e2 :: ents2)).
Qed.

Lemma entitlements_summary_ignores_order_and_duplicates_witness :
  entitlements_summary
    [Entitlement "OpenShift" "PREMIUM"; Entitlement "RHEL" "STANDARD";
     Entitlement "OpenShift" "PREMIUM"]
  = entitlements_summary
      [Entitlement "RHEL" "STANDARD"; Entitlement "OpenShift" "PREMIUM"].
Proof.
  apply (entitlements_summary_ignores_order_and_duplicates
           [Entitlement "OpenShift" "PREMIUM"; Entitlement "RHEL" "STANDARD";
            Entitlement "OpenShift" "PREMIUM"]
           [Entitlement "RHEL" "STANDARD"; Entitlement "OpenShift" "PREMIUM"]).
  intros e. simpl. tauto.
Defined.

(** ** The open cases of a summary *)

(** X18. When the comments of every open case can be fetched, the cases
    listed are exactly the open cases whose comments mention the cluster
    id, in the order the backend lists them. *)
Theorem relevant_cases_are_those_mentioning_the_cluster (H : hydra_reads)
    (cluster : string) (cases : list case) :
  Forall (fun c => exists comments,
            get_case_comments H (caseNumber c) = Ok comments) cases ->
  relevant_cases H cluster cases
  = Ok (List.filter (mentions_cluster H cluster) cases).
Proof.
  induction 1 as [|c cases [comments Hc] _ IH]; simpl; [done|].
  unfold mentions_cluster at 1. by rewrite Hc, IH.
Qed.

Lemma relevant_cases_are_those_mentioning_the_cluster_witness :
  relevant_cases sample_reads "ABC" [Case "1" "Monday" "Ann" "upgrade stuck"]
  = Ok (List.filter (mentions_cluster sample_reads "ABC")
          [Case "1" "Monday" "Ann" "upgrade stuck"]).
Proof.
  apply (relevant_cases_are_those_mentioning_the_cluster sample_reads "ABC"
           [Case "1" "Monday" "Ann" "upgrade stuck"]).
  constructor; [|constructor]. by eexists.
Defined.



(** ** The summary of a cluster without support *)

(** X20. [summary] for a cluster whose subscription carries neither
    [managed] nor [support], on an account without entitlements and
    without open cases: the reply is one block per line, with the cluster
    id, the account, ["Managed: Unknown"], ["Support: None"], the
    entitlements line saying that no support case can be opened, and one
    line per dashboard. *)
Theorem summary_of_cluster_without_support (E : env) (H : hydra_reads)
    (DASHBOARDS : string) (d : data) (args : namespace) (w : world)
    (c : string) (t : Z) (cluster account : string) (sub : subscription) :
  channel d = Some c -> ts d = Some t -> ns_cluster args = Some cluster ->
  telemetry_subscription E cluster ["ebs_account"; "managed"; "support"]
  = Ok sub ->
  telemetry_ebs_account E sub = Ok account ->
  hydra_fault E get_account_notes = None ->
  sub_managed sub = None -> sub_support sub = None ->
  get_entitlements H account = Ok [] ->
  get_open_cases H account = Ok [] ->
  handle_summary (env_with_lines E H DASHBOARDS) d args w
  = (Ok (Some (Response (chat_ok E))),
     replied c (default t (thread_ts d))
       (Blocks
          ([ ("Cluster " ++ cluster)%string;
             ("Created by Red Hat Customer Portal Account ID " ++ account)%string;
             "Managed: Unknown";
             "Support: None";
             "Entitlements: None.  Customer Experience and Engagement (CEE) will not be able to open support cases." ]
           ++ map (fun base => ("Dashboard: " ++ base ++ cluster)%string)
                (dashboard_bases DASHBOARDS))%list)
       w).
Proof.
  intros Hc Ht Hcl Hsub Hacct Hget Hman Hsup Hents Hcases.
  unfold handle_summary, get_summary, get_notes, hydra_get_account_notes.
  run_bot. rewrite Hc, Ht, Hcl. cbn [env_with_lines telemetry_subscription
    telemetry_ebs_account hydra_fault info_lines chat_ok].
  rewrite Hsub, Hacct, Hget.
  unfold summary_lines, no_support, get_entitlements_summary, head_lines.
  rewrite Hsup, Hents, Hcases, Hman. cbn [relevant_cases map default fst snd].
  unfold replied. cbn [entitlements_summary app]. by rewrite app_nil_r.
Qed.

Lemma summary_of_cluster_without_support_witness :
  handle_summary
    (env_with_lines (Sample.env_at 0)
       (HydraReads (fun _ => Ok []) (fun _ => Ok []) (fun _ => Ok ""))
       "https://dash/ ")
    (Sample.message_data "" 5) (Namespace (Some handle_summary_f) (Some "ABC"))
    (Sample.world_with [])
  = (Ok (Some (Response true)),
     replied "C1" 5%Z
       (Blocks
          ([ ("Cluster " ++ "ABC")%string;
             ("Created by Red Hat Customer Portal Account ID " ++ "acct")%string;
             "Managed: Unknown";
             "Support: None";
             "Entitlements: None.  Customer Experience and Engagement (CEE) will not be able to open support cases." ]
           ++ map (fun base => ("Dashboard: " ++ base ++ "ABC")%string)
                (dashboard_bases "https://dash/ "))%list)
       (Sample.world_with [])).
Proof.
  apply (summary_of_cluster_without_support (Sample.env_at 0)
           (HydraReads (fun _ => Ok []) (fun _ => Ok []) (fun _ => Ok ""))
           "https://dash/ " (Sample.message_data "" 5)
           (Namespace (Some handle_summary_f) (Some "ABC"))
           (Sample.world_with []) "C1" 5%Z "ABC" "acct"
           (Subscription (Some "acct") None None));
    reflexivity.
Defined.

(** X21. A cluster whose subscription has a support level is summarised
    without asking for entitlements: the lines are the same whatever
    [get_entitlements] answers or raises, and none of them is an
    entitlements line. *)
Theorem supported_cluster_needs_no_entitlements (H : hydra_reads)
    (ents : string -> result (list entitlement))
    (DASHBOARDS cluster account : string) (sub : subscription) :
  no_support sub = false ->
  summary_lines H DASHBOARDS cluster account sub
  = summary_lines (HydraReads ents (get_open_cases H) (get_case_comments H))
      DASHBOARDS cluster account sub
  /\ forall lines,
       summary_lines H DASHBOARDS cluster account sub = Ok lines ->
       Forall (fun line => startswith line "Entitlements: " = false) lines.
Proof.
  intros Hsup. split.
  - unfold summary_lines. rewrite Hsup. cbn [get_open_cases].
    destruct (get_open_cases H account) as [cases|e]; [|done].
    assert (Hrel : forall cs,
              relevant_cases
                (HydraReads ents (get_open_cases H) (get_case_comments H))
                cluster cs
              = relevant_cases H cluster cs).
    { induction cs as [|c cs IH]; [done|]. simpl. by rewrite IH. }
    by rewrite Hrel.
  - intros lines. unfold summary_lines. rewrite Hsup.
    destruct (get_open_cases H account) as [cases|e]; [|done].
    destruct (relevant_cases H cluster cases) as [kept|e]; [|done].
    intros [= <-]. do 4 (constructor; [done|]).
    apply Forall_app. split; apply Forall_fmap, Forall_true; done.
Qed.

Lemma supported_cluster_needs_no_entitlements_witness :
  let sub := Subscription (Some "acct") None (Some "Premium") in
  let H := HydraReads (fun _ => Ok []) (fun _ => Ok []) (fun _ => Ok "") in
  summary_lines H "" "ABC" "acct" sub
  = summary_lines
      (HydraReads (fun _ => Raise (OtherException "down"))
         (get_open_cases H) (get_case_comments H))
      "" "ABC" "acct" sub
  /\ forall lines,
       summary_lines H "" "ABC" "acct" sub = Ok lines ->
       Forall (fun line => startswith line "Entitlements: " = false) lines.
Proof.
  apply (supported_cluster_needs_no_entitlements
           (HydraReads (fun _ => Ok []) (fun _ => Ok []) (fun _ => Ok ""))
           (fun _ => Raise (OtherException "down")) "" "ABC" "acct"
           (Subscription (Some "acct") None (Some "Premium"))).
  reflexivity.
Defined.

(** ** The UUID pattern *)

Section UuidPattern.

Import UuidRe.

Lemma append_length (a b : string) :
  String.length (a ++ b) = String.length a + String.length b.
Proof. induction a as [|c a IH]; [done|]. rewrite append_cons. simpl. lia. Qed.

Lemma consumes_one (ok : ascii -> bool) : consumes 1 1 (one ok).
Proof.
  intros [|c s] a r; simpl; [done|]. destruct (ok c); [|done].
  intros [= <- <-]. split; [done|simpl; lia].
Qed.

Lemma consumes_then (lo1 hi1 lo2 hi2 : nat) (p q : matcher) :
  consumes lo1 hi1 p -> consumes lo2 hi2 q ->
  consumes (lo1 + lo2) (hi1 + hi2) (then_ p q).
Proof.
  intros Hp Hq s a r. unfold then_.
  destruct (p s) as [[a1 r1]|] eqn:H1; [|done].
  destruct (q r1) as [[a2 r2]|] eqn:H2; [|done].
  intros [= <- <-]. apply Hp in H1 as [-> ?]. apply Hq in H2 as [-> ?].
  rewrite append_assoc, append_length. split; [done|lia].
Qed.

Lemma consumes_hex (n : nat) : consumes n n (hex n).
Proof.
  induction n as [|n IH]; simpl.
  - intros s a r [= <- <-]. split; [done|simpl; lia].
  - apply (consumes_then 1 1 n n); [apply consumes_one|done].
Qed.

Lemma consumes_hyphen : consumes 0 1 hyphen.
Proof.
  intros s a r. unfold hyphen.
  destruct s as [|c s]; [intros [= <- <-]; split; [done|simpl; lia]|].
  destruct (Ascii.eqb c "-"%char) eqn:Hc.
  - apply Ascii.eqb_eq in Hc as ->. intros [= <- <-]. split; [done|simpl; lia].
  - assert (Hsame : match c with
                    | "-"%char => Some ("-", s)
                    | _ => Some ("", String c s)
                    end = Some ("", String c s)).
    { by destruct c as [[] [] [] [] [] [] [] []]. }
    rewrite Hsame. intros [= <- <-]. split; [done|simpl; lia].
Qed.

Lemma consumes_uuid : consumes 32 36 uuid.
Proof.
  unfold uuid.
  apply (consumes_then 8 8 24 28); [apply consumes_hex|].
  apply (consumes_then 0 1 24 27); [apply consumes_hyphen|].
  apply (consumes_then 4 4 20 23); [apply consumes_hex|].
  apply (consumes_then 0 1 20 22); [apply consumes_hyphen|].
  apply (consumes_then 1 1 19 21); [apply consumes_one|].
  apply (consumes_then 3 3 16 18); [apply consumes_hex|].
  apply (consumes_then 0 1 16 17); [apply consumes_hyphen|].
  apply (consumes_then 1 1 15 16); [apply consumes_one|].
  apply (consumes_then 3 3 12 13); [apply consumes_hex|].
  apply (consumes_then 0 1 12 12); [apply consumes_hyphen|].
  apply consumes_hex.
Qed.

Lemma uuid_at_front (s found : string) :
  uuid_at s = Some found ->
  String.prefix found s = true /\ 32 <= String.length found <= 36.
Proof.
  unfold uuid_at. destruct (uuid s) as [[a r]|] eqn:Hu; [|done].
  intros [= <-]. apply consumes_uuid in Hu as [-> Hlen].
  split; [apply prefix_append|done].
Qed.

Lemma contains_front (found s : string) :
  String.prefix found s = true -> contains found s = true.
Proof. intros Hp. destruct s; cbn [contains]; by rewrite Hp. Qed.

Lemma search_found (line found : string) :
  search line = Some found ->
  contains found line = true /\ 32 <= String.length found <= 36.
Proof.
  induction line as [|c line IH]; cbn [search].
  - intros Hat. apply uuid_at_front in Hat as [Hp Hlen].
    split; [by apply contains_front|done].
  - destruct (search line) as [later|].
    + intros [= <-]. destruct (IH eq_refl) as [Hc Hlen].
      split; [|done]. cbn [contains]. rewrite Hc. apply orb_true_r.
    + intros Hat. apply uuid_at_front in Hat as [Hp Hlen].
      split; [|done]. cbn [contains]. by rewrite Hp.
Qed.

Lemma search_latest (before s : string) :
  is_Some (search s) -> search (before ++ s) = search s.
Proof.
  intros [found Hs]. induction before as [|c before IH]; [done|].
  rewrite append_cons. simpl. by rewrite IH, Hs.
Qed.

End UuidPattern.

(** X22. What the UUID matcher counts.  When the pattern matches, the
    text found has between 32 and 36 characters and occurs as it was
    typed in the first line of the message, and [handle_uuid_mention]
    increments the mention counter under exactly that text. *)
Theorem uuid_mention_is_counted_as_typed (E : env) (txt found : string)
    (w : world) :
  UuidRe.uuid_re_match txt = Some found ->
  contains found (fst (split_nl txt)) = true
  /\ 32 <= String.length found <= 36
  /\ mention_counter (snd (handle_uuid_mention (env_with_uuid_re E) txt w))
     = inc found (mention_counter w).
Proof.
  intros Hm. unfold UuidRe.uuid_re_match in Hm.
  destruct (search_found _ _ Hm) as [Hc Hlen].
  split; [done|]. split; [done|].
  unfold handle_uuid_mention. cbn [env_with_uuid_re uuid_re_match].
  unfold UuidRe.uuid_re_match. by rewrite Hm.
Qed.

(** X23. Only the first line of a message is searched, and of several
    UUIDs in it the one that starts last is taken: whatever stands in
    front of a part of the line in which a UUID is found, the UUID found
    in the line is the one found in that part. *)
Theorem uuid_match_takes_the_last_of_the_first_line (before s rest : string) :
  ~ In newline (list_ascii_of_string (before ++ s)) ->
  is_Some (UuidRe.search s) ->
  UuidRe.uuid_re_match ((before ++ s) ++ nl ++ rest) = UuidRe.search s
  /\ UuidRe.uuid_re_match (before ++ s) = UuidRe.search s.
Proof.
  intros Hline Hs. unfold UuidRe.uuid_re_match.
  rewrite split_nl_line by done. cbn [fst].
  rewrite (search_latest before s Hs). split; [done|].
  pose proof (split_nl_spec (before ++ s)) as Hspec.
  destruct (split_nl (before ++ s)) as [line [more|]].
  - destruct Hspec as [Heq Hno]. exfalso. apply Hline. rewrite Heq.
    clear. induction line as [|c line IH]; simpl; [by left|by right].
  - destruct Hspec as [<- _]. cbn [fst]. by apply search_latest.
Qed.

Lemma uuid_mention_is_counted_as_typed_witness :
  let txt := "cluster 123E4567-e89b-42d3-a456-426614174000 is down" in
  let found := "123E4567-e89b-42d3-a456-426614174000" in
  contains found (fst (split_nl txt)) = true
  /\ 32 <= String.length found <= 36
  /\ mention_counter
       (snd (handle_uuid_mention (env_with_uuid_re (Sample.env_at 0)) txt
               (Sample.world_with [])))
     = inc found (mention_counter (Sample.world_with [])).
Proof.
  apply (uuid_mention_is_counted_as_typed (Sample.env_at 0)
           "cluster 123E4567-e89b-42d3-a456-426614174000 is down"
           "123E4567-e89b-42d3-a456-426614174000" (Sample.world_with [])).
  vm_compute. reflexivity.
Defined.

Lemma uuid_match_takes_the_last_of_the_first_line_witness :
  let before := "a " in
  let s := "00000000-0000-4000-8000-000000000000 and 123e4567e89b42d3a456426614174000" in
  UuidRe.uuid_re_match ((before ++ s) ++ nl ++ "more") = UuidRe.search s
  /\ UuidRe.uuid_re_match (before ++ s) = UuidRe.search s.
Proof.
  apply (uuid_match_takes_the_last_of_the_first_line "a "
           "00000000-0000-4000-8000-000000000000 and 123e4567e89b42d3a456426614174000"
           "more").
  - intros H. repeat destruct H as [H|H]; try discriminate H. exact H.
  - eexists. vm_compute. reflexivity.
Defined.

(** ** The registry of commands *)

Lemma help_flag_is_option (tok : string) :
  Argparse.is_help_flag tok = true -> Argparse.is_option tok = true.
Proof.
  unfold Argparse.is_help_flag. cbn [existsb]. rewrite !orb_true_iff.
  intros [H|[H|[H|[H|[H|H]]]]]; try discriminate H;
    apply String.eqb_eq in H as ->; reflexivity.
Qed.

(** X24. The registry at the end of the file.  [help] alone is bound to
    [handle_help]; each of [summary], [set-summary], [detail] and
    [comment], followed by one token that is not an option, is bound to
    its own handler with that token as the cluster; without the token it
    is a parse error asking for the ID. *)
Theorem registry_binds_each_command (id : string) :
  Argparse.is_option id = false ->
  Argparse.parse_args ["help"] = Ok (Namespace (Some handle_help_f) None)
  /\ Forall (fun '(name, h) =>
               Argparse.parse_args [name; id]
               = Ok (Namespace (Some h) (Some id))
               /\ Argparse.parse_args [name]
                  = Raise (ParseArgsError None
                             (Some "the following arguments are required: ID")))
       [("summary", handle_summary_f); ("set-summary", handle_set_summary_f);
        ("detail", handle_detail_f); ("comment", handle_comment_f)].
Proof.
  intros Hopt.
  assert (Hhelp : Argparse.is_help_flag id = false).
  { destruct (Argparse.is_help_flag id) eqn:Hh; [|done].
    apply help_flag_is_option in Hh. congruence. }
  split; [reflexivity|].
  assert (Hone : forall name self h,
            Argparse.is_help_flag name = false ->
            Argparse.is_option name = false ->
            Argparse.subcommand name = Some (self, h, true) ->
            Argparse.parse_args [name; id]
            = Ok (Namespace (Some h) (Some id))
            /\ Argparse.parse_args [name]
               = Raise (ParseArgsError None
                          (Some "the following arguments are required: ID"))).
  { intros name self h Hh Ho Hsub. unfold Argparse.parse_args.
    cbn [Argparse.parse_main]. rewrite Hh, Ho, Hsub.
    cbn [Argparse.parse_sub]. by rewrite Hhelp, Hopt. }
  repeat (constructor; [eapply Hone; reflexivity|]).
  constructor.
Qed.

Lemma registry_binds_each_command_witness :
  Argparse.parse_args ["help"] = Ok (Namespace (Some handle_help_f) None)
  /\ Forall (fun '(name, h) =>
               Argparse.parse_args [name; "ABC"]
               = Ok (Namespace (Some h) (Some "ABC"))
               /\ Argparse.parse_args [name]
                  = Raise (ParseArgsError None
                             (Some "the following arguments are required: ID")))
       [("summary", handle_summary_f); ("set-summary", handle_set_summary_f);
        ("detail", handle_detail_f); ("comment", handle_comment_f)].
Proof. apply (registry_binds_each_command "ABC"). reflexivity. Defined.

(** ** The dashboards *)



(** ** Summaries of different clusters *)

Lemma prefix_cons (a b : ascii) (p s : string) :
  String.prefix (String a p) (String b s) = true ->
  a = b /\ String.prefix p s = true.
Proof. simpl. by destruct (Ascii.ascii_dec a b). Qed.

Lemma ids_of_one_subject (c1 c2 r1 r2 s : string) :
  plain_id c1 -> plain_id c2 ->
  String.prefix (c1 ++ String ")" r1) s = true ->
  String.prefix (c2 ++ String ")" r2) s = true ->
  c1 = c2.
Proof.
  unfold plain_id. revert c2 s.
  induction c1 as [|a c1 IH]; intros [|b c2] [|x s] H1 H2;
    rewrite ?append_empty, ?append_cons; try done.
  - intros Hp1 Hp2. apply prefix_cons in Hp1 as [<- _].
    apply prefix_cons in Hp2 as [-> _]. destruct H2. by left.
  - intros Hp1 Hp2. apply prefix_cons in Hp1 as [-> _].
    apply prefix_cons in Hp2 as [<- _]. destruct H1. by left.
  - intros Hp1 Hp2. apply prefix_cons in Hp1 as [-> Hp1].
    apply prefix_cons in Hp2 as [-> Hp2]. f_equal.
    apply (IH c2 s); [|  |done|done]; intros Hin.
    + apply H1. by right.
    + apply H2. by right.
Qed.

Lemma prefix_of_append (p q s : string) :
  String.prefix (p ++ q) s = true -> exists r, s = p ++ r /\ String.prefix q r = true.
Proof.
  revert s. induction p as [|a p IH]; intros s; [by exists s|].
  rewrite append_cons. destruct s as [|b s]; [done|].
  intros Hp. apply prefix_cons in Hp as [-> Hp].
  destruct (IH s Hp) as (r & -> & Hq). by exists r.
Qed.

Lemma summary_of_one_cluster (c1 c2 : string) (n : note) :
  plain_id c1 -> plain_id c2 ->
  is_summary c1 n = true -> is_summary c2 n = true -> c1 = c2.
Proof.
  unfold is_summary, startswith, subject_prefix. intros H1 H2.
  destruct (isRetired n); [done|]. cbn [negb andb]. intros Hp1 Hp2.
  apply prefix_of_append in Hp1 as (r1 & Hs1 & Hp1).
  apply prefix_of_append in Hp2 as (r2 & Hs2 & Hp2).
  rewrite Hs1 in Hs2.
  assert (r1 = r2) as <-.
  { clear -Hs2. revert Hs2. generalize "Summary (cluster ".
    induction s as [|a s IH]; [done|]. rewrite !append_cons.
    intros [= H]. by apply IH. }
  change (c1 ++ "): ") with (c1 ++ String ")" ": ") in Hp1.
  change (c2 ++ "): ") with (c2 ++ String ")" ": ") in Hp2.
  by apply (ids_of_one_subject c1 c2 ": " ": " r1).
Qed.

(** X26. Setting the summary of one cluster leaves the summaries of the
    other clusters of the account alone.  For two different cluster ids
    without a closing parenthesis, on an account whose notes have
    distinct ids, a completed [handle_set_summary] for the first keeps
    the summary notes of the second, and so the summary [get_notes]
    resolves for it. *)
Theorem set_summary_keeps_other_clusters (E : env) (d : data)
    (args : namespace) (txt : string) (w : world) (c : string) (t : Z)
    (cluster other account : string) :
  channel d = Some c -> ts d = Some t -> ns_cluster args = Some cluster ->
  resolved E cluster ["ebs_account"] = Ok account ->
  (forall call, hydra_fault E call = None) ->
  NoDup (map note_id (Hydra.notes_of (account_notes w) account)) ->
  plain_id cluster -> plain_id other -> cluster <> other ->
  let after := snd (handle_set_summary E d args txt w) in
  List.filter (is_summary other)
    (Hydra.notes_of (account_notes after) account)
  = List.filter (is_summary other)
      (Hydra.notes_of (account_notes w) account)
  /\ fst (get_notes_of other (Hydra.notes_of (account_notes after) account))
     = fst (get_notes_of other (Hydra.notes_of (account_notes w) account)).
Proof.
  intros Hc Ht Hcl Hres Hfault Hnd Hid1 Hid2 Hne. cbv zeta.
  assert (Hfilter :
    List.filter (is_summary other)
      (Hydra.notes_of
         (account_notes (snd (handle_set_summary E d args txt w))) account)
    = List.filter (is_summary other)
        (Hydra.notes_of (account_notes w) account)).
  { rewrite (handle_set_summary_run E d args txt w c t cluster) by done.
    destruct (split_subject_body txt) as [subj rest]. cbv beta iota zeta.
    rewrite (set_summary_writes_ok E cluster subj _ account w) by done.
    cbn [finish snd replied counted after_writes account_notes].
    rewrite replay_replaced. unfold replaced.
    set (notes := Hydra.notes_of (account_notes w) account) in *.
    assert (Hnew : forall id body,
              is_summary other
                (Note id (subject_prefix cluster ++ subj) body false) = false).
    { intros id body.
      destruct (is_summary other (Note id _ body false)) eqn:Hs; [|done].
      destruct Hne. symmetry.
      apply (summary_of_one_cluster other cluster _ Hid2 Hid1 Hs).
      apply new_note_is_summary. }
    assert (Hposted : List.filter (is_summary other)
                        (Hydra.post (hydra_slot E)
                           (subject_prefix cluster ++ subj)
                           (strip (strip rest ++ footer)) notes)
                      = List.filter (is_summary other) notes).
    { rewrite filter_post. cbn [List.filter]. rewrite Hnew. cbn [app].
      apply filter_take_drop. }
    destruct (fst (get_notes_of cluster notes)) as [old|] eqn:Hold;
      [|exact Hposted].
    unfold Hydra.delete. rewrite filter_filter_comm, Hposted.
    apply filter_all. intros n Hn.
    apply List.filter_In in Hn as [Hn Hother].
    apply found_summary_in in Hold as [Hin Hsum].
    apply negb_true_iff, Nat.eqb_neq. intros Hsame.
    assert (n = old) as -> by (by apply (same_id_same_note notes)).
    destruct Hne. by apply (summary_of_one_cluster cluster other old). }
  split; [exact Hfilter|]. unfold get_notes_of.
  by rewrite !scan_notes_summary, !find_head_filter, Hfilter.
Qed.

Lemma set_summary_keeps_other_clusters_witness :
  let after := snd (handle_set_summary (Sample.env_at 0)
                      (Sample.message_data "" 5) set_summary_args
                      "new" two_clusters) in
  List.filter (is_summary "F")
    (Hydra.notes_of (account_notes after) "acct")
  = List.filter (is_summary "F")
      (Hydra.notes_of (account_notes two_clusters) "acct")
  /\ fst (get_notes_of "F" (Hydra.notes_of (account_notes after) "acct"))
     = fst (get_notes_of "F"
              (Hydra.notes_of (account_notes two_clusters) "acct")).
Proof.
  apply (set_summary_keeps_other_clusters (Sample.env_at 0)
           (Sample.message_data "" 5) set_summary_args "new" two_clusters
           "C1" 5%Z "E" "F" "acct"); try reflexivity.
  - apply (bool_decide_unpack _). reflexivity.
  - intros H. repeat destruct H as [H|H]; try discriminate H. exact H.
  - intros H. repeat destruct H as [H|H]; try discriminate H. exact H.
  - discriminate.
Defined.
